(** * Kernel pool-tag tracker: decoder, growth computation and sampling loop

    A shallow embedding of
    [src/skills/kernel-memory-diagnosis/pool_tag_tracker.py]
    and the properties its specification states about it.

    Python integers are [Z]; buffer offsets and lengths are [nat];
    [bytes] is [list byte]; [str] is [string]; a [dict] is an association
    list kept in insertion order (the order [dict.items()] iterates in);
    exceptions are a result type; Python floats are IEEE 754 binary64
    values of [SpecFloat]. *)

From Stdlib Require Import ZArith List Bool Lia.
From Stdlib Require Import Strings.String Strings.Ascii Strings.Byte.
From Stdlib Require Import Permutation Sorted.
From Stdlib Require Import Floats.SpecFloat.
Import ListNotations.

Open Scope Z_scope.

(** ** The fragment of Python the program uses *)

Module Py.

(** Exceptions the program can raise. *)
Inductive exn : Set :=
| StructError        (* struct.error *)
| ZeroDivisionError
| OverflowError
| ValueError.

Inductive result (A : Type) : Type :=
| Ok (a : A)
| Raise (e : exn).
Arguments Ok {A} a.
Arguments Raise {A} e.

Definition bind {A B : Type} (m : result A) (k : A -> result B) : result B :=
  match m with
  | Ok a => k a
  | Raise e => Raise e
  end.

(** [data[lo:hi]] for [0 <= lo <= hi]. *)
Definition slice {A : Type} (l : list A) (lo hi : nat) : list A :=
  firstn (hi - lo) (skipn lo l).

(** *** dict: insertion-ordered, assignment to a present key keeps its place *)

Definition dict (V : Type) : Type := list (string * V).

Fixpoint dict_get {V : Type} (d : dict V) (k : string) : option V :=
  match d with
  | [] => None
  | (k', v) :: d' => if String.eqb k' k then Some v else dict_get d' k
  end.

(** [d.get(k, default)] *)
Definition dict_get_default {V : Type} (d : dict V) (k : string) (default : V) : V :=
  match dict_get d k with
  | Some v => v
  | None => default
  end.

(** [d[k] = v] *)
Fixpoint dict_set {V : Type} (d : dict V) (k : string) (v : V) : dict V :=
  match d with
  | [] => [(k, v)]
  | (k', v') :: d' =>
      if String.eqb k' k then (k', v) :: d' else (k', v') :: dict_set d' k v
  end.

Definition keys {V : Type} (d : dict V) : list string := map fst d.

(** *** list.sort(key=..., reverse=True)

    [list.sort] is stable, also with [reverse=True]: elements with equal
    keys keep their relative order.  The result of a stable sort is
    determined by its input, so a stable insertion sort computes it. *)

Section Sort.
Context {A : Type} (key : A -> Z).

Fixpoint insert_desc (x : A) (l : list A) : list A :=
  match l with
  | [] => [x]
  | y :: l' =>
      if key y <=? key x then x :: y :: l' else y :: insert_desc x l'
  end.

Fixpoint sort_reverse (l : list A) : list A :=
  match l with
  | [] => []
  | x :: l' => insert_desc x (sort_reverse l')
  end.
End Sort.

(** *** float: IEEE 754 binary64 *)

Definition float : Set := spec_float.

Definition prec : Z := 53.
Definition emax : Z := 1024.

(** An integer as an unrounded floating point datum. *)
Definition exact_of_int (n : Z) : spec_float :=
  match n with
  | Z0 => S754_zero false
  | Zpos p => S754_finite false p 0
  | Zneg p => S754_finite true p 0
  end.

Definition is_inf (x : spec_float) : bool :=
  match x with
  | S754_infinity _ => true
  | _ => false
  end.

Definition is_zero (x : spec_float) : bool :=
  match x with
  | S754_zero _ => true
  | _ => false
  end.

(** [float(n)]: the nearest double, OverflowError when out of range. *)
Definition float_of_int (n : Z) : result float :=
  let x := binary_normalize prec emax n 0 false in
  if is_inf x then Raise OverflowError else Ok x.

(** [a / b] on two ints: the correctly rounded quotient. *)
Definition int_truediv (a b : Z) : result float :=
  if b =? 0 then Raise ZeroDivisionError
  else
    let x := SFdiv prec emax (exact_of_int a) (exact_of_int b) in
    if is_inf x then Raise OverflowError else Ok x.

(** [x / y] on two floats. *)
Definition float_truediv (x y : float) : result float :=
  if is_zero y then Raise ZeroDivisionError else Ok (SFdiv prec emax x y).

(** [x * n] and [x / n] with a float and an int: the int is converted first. *)
Definition float_mul_int (x : float) (n : Z) : result float :=
  bind (float_of_int n) (fun y => Ok (SFmul prec emax x y)).

Definition float_div_int (x : float) (n : Z) : result float :=
  bind (float_of_int n) (fun y => float_truediv x y).

End Py.

Import Py.

Declare Scope py_scope.
Delimit Scope py_scope with py.
Notation "x <- m ;; k" := (Py.bind m (fun x => k))
  (at level 61, m at next level, right associativity) : py_scope.
Notation "' p <- m ;; k" := (Py.bind m (fun p => k))
  (at level 61, p pattern, m at next level, right associativity) : py_scope.

(** ** struct.unpack_from with little-endian standard sizes *)

Module Struct.

Inductive code : Set :=
| fmt_I   (* 'I': unsigned int, 4 bytes *)
| fmt_Q.  (* 'Q': unsigned long long, 8 bytes *)

Definition size_of (c : code) : nat :=
  match c with
  | fmt_I => 4%nat
  | fmt_Q => 8%nat
  end.

Definition calcsize (fmt : list code) : nat :=
  fold_right (fun c n => (size_of c + n)%nat) 0%nat fmt.

(** The unsigned value of a little-endian byte string. *)
Fixpoint le_value (bs : list byte) : Z :=
  match bs with
  | [] => 0
  | b :: bs' => Z.of_N (Byte.to_N b) + 256 * le_value bs'
  end.

Fixpoint unpack_fields (fmt : list code) (bs : list byte) : list Z :=
  match fmt with
  | [] => []
  | c :: fmt' =>
      le_value (firstn (size_of c) bs) :: unpack_fields fmt' (skipn (size_of c) bs)
  end.

(** [struct.unpack_from('<' + fmt, data, offset)]: struct.error unless
    the buffer holds [calcsize] bytes from [offset] on. *)
Definition unpack_from (fmt : list code) (data : list byte) (offset : nat)
  : result (list Z) :=
  if (offset + calcsize fmt <=? List.length data)%nat
  then Ok (unpack_fields fmt (slice data offset (offset + calcsize fmt)))
  else Raise StructError.

(** [unpack_from('<I', ...)[0]] and [unpack_from('<Q', ...)[0]] *)
Definition unpack1 (c : code) (data : list byte) (offset : nat) : result Z :=
  (vs <- unpack_from [c] data offset ;;
   match vs with
   | v :: _ => Ok v
   | [] => Raise ValueError
   end)%py.

(** [a, b = unpack_from('<II', ...)] *)
Definition unpack2 (c1 c2 : code) (data : list byte) (offset : nat)
  : result (Z * Z) :=
  (vs <- unpack_from [c1; c2] data offset ;;
   match vs with
   | [a; b] => Ok (a, b)
   | _ => Raise ValueError
   end)%py.

End Struct.

(** ** pool_tag_tracker.py *)

(** One value of the dict [get_pool_tags] returns. *)
Record sample : Set := mk_sample {
  paged : Z;
  nonpaged : Z;
  p_out : Z;
  np_out : Z
}.

Definition snapshot : Type := dict sample.

(** What [NtQuerySystemInformation(22, buf, buf_size, byref(ret_len))]
    leaves behind: the returned status, the contents of [buf.raw] and
    [ret_len.value]. *)
Record os_reply : Set := mk_reply {
  status : Z;
  raw : list byte;
  ret_len : nat
}.

Definition buf_size : Z := 2 * 1024 * 1024.

(** [chr(b) if 32 <= b < 127 else '.'] *)
Definition tag_char (b : byte) : ascii :=
  let n := Z.of_N (Byte.to_N b) in
  if (32 <=? n) && (n <? 127) then ascii_of_byte b else "."%char.

(** [''.join(... for b in data[offset:offset+4])] *)
Definition tag_at (data : list byte) (offset : nat) : string :=
  string_of_list_ascii (map tag_char (slice data offset (offset + 4))).

(** The six numbers one loop iteration reads from a record. *)
Record counters : Set := mk_counters {
  pa : Z; pf : Z; pu : Z;
  npa : Z; npf : Z; npu : Z
}.

Definition read_counters (data : list byte) (offset : nat) : result counters :=
  ('(pa, pf) <- Struct.unpack2 Struct.fmt_I Struct.fmt_I data (offset + 4) ;;
   pu <- Struct.unpack1 Struct.fmt_Q data (offset + 16) ;;
   '(npa, npf) <- Struct.unpack2 Struct.fmt_I Struct.fmt_I data (offset + 24) ;;
   npu <- Struct.unpack1 Struct.fmt_Q data (offset + 32) ;;
   Ok (mk_counters pa pf pu npa npf npu))%py.

Definition sample_of (c : counters) : sample :=
  {| paged := pu c; nonpaged := npu c;
     p_out := pa c - pf c; np_out := npa c - npf c |}.

(** [for _ in range(count)] with the remaining iterations as [n]. *)
Fixpoint decode_loop (data : list byte) (n : nat) (offset : nat) (tags : snapshot)
  : result snapshot :=
  match n with
  | O => Ok tags
  | S n' =>
      if (List.length data <? offset + 40)%nat then Ok tags   (* break *)
      else
        (let tag := tag_at data offset in
         c <- read_counters data offset ;;
         decode_loop data n' (offset + 40) (dict_set tags tag (sample_of c)))%py
  end.

(** Lines 19-33: everything after the status check. *)
Definition decode (data : list byte) : result snapshot :=
  (count <- Struct.unpack1 Struct.fmt_I data 0 ;;
   decode_loop data (Z.to_nat count) 8 [])%py.

Definition get_pool_tags (r : os_reply) : result snapshot :=
  if negb (status r =? 0) then Ok []
  else decode (firstn (ret_len r) (raw r)).

(** *** main: growth against the baseline (lines 54-63) *)

Definition min_delta_kb : Z := 100.

(** A tuple appended to [growers]:
    [(tag, d_paged, d_np, d_total, cur['paged'] + cur['nonpaged'])]. *)
Record grower : Set := mk_grower {
  g_tag : string;
  g_d_paged : Z;
  g_d_np : Z;
  g_d_total : Z;
  g_total : Z
}.

(** The default of [baseline.get(tag, ...)]. *)
Definition zero_sample : sample :=
  {| paged := 0; nonpaged := 0; p_out := 0; np_out := 0 |}.

(** One iteration of [for tag, cur in current.items()]. *)
Definition growers_step (baseline : snapshot) (growers : list grower)
  (item : string * sample) : list grower :=
  let '(tag, cur) := item in
  let base := dict_get_default baseline tag zero_sample in
  let d_paged := paged cur - paged base in
  let d_np := nonpaged cur - nonpaged base in
  let d_total := d_paged + d_np in
  if d_total >? min_delta_kb * 1024
  then growers ++ [mk_grower tag d_paged d_np d_total (paged cur + nonpaged cur)]
  else growers.

(** [growers] after the loop and [growers.sort(key=lambda x: x[3], reverse=True)]. *)
Definition growers_unsorted (baseline current : snapshot) : list grower :=
  fold_left (growers_step baseline) current [].

Definition growers (baseline current : snapshot) : list grower :=
  sort_reverse g_d_total (growers_unsorted baseline current).

(** *** main: the final summary (lines 80-98) *)

(** A tuple appended to [suspects]:
    [(tag, d_total, rate_kb_per_min, cur['paged'] + cur['nonpaged'])]. *)
Record suspect : Set := mk_suspect {
  s_tag : string;
  s_d_total : Z;
  s_rate : float;
  s_total : Z
}.

(** [(d_total / 1024) / (samples * interval / 60)] *)
Definition rate_kb_per_min (d_total samples interval : Z) : result float :=
  (kb <- int_truediv d_total 1024 ;;
   minutes <- int_truediv (samples * interval) 60 ;;
   float_truediv kb minutes)%py.

(** [rate * 60 * 24 / 1024] *)
Definition est_day (rate : float) : result float :=
  (a <- float_mul_int rate 60 ;;
   b <- float_mul_int a 24 ;;
   float_div_int b 1024)%py.

(** One iteration of [for tag, cur in final.items()]; the default of
    [baseline.get] has only the two keys that are read. *)
Definition suspects_step (baseline : snapshot) (samples interval : Z)
  (suspects : list suspect) (item : string * sample) : result (list suspect) :=
  let '(tag, cur) := item in
  let base := dict_get_default baseline tag zero_sample in
  let d_total := (paged cur + nonpaged cur) - (paged base + nonpaged base) in
  if d_total >? min_delta_kb * 1024
  then
    (rate <- rate_kb_per_min d_total samples interval ;;
     Ok (suspects ++ [mk_suspect tag d_total rate (paged cur + nonpaged cur)]))%py
  else Ok suspects.

Fixpoint suspects_loop (baseline : snapshot) (samples interval : Z)
  (items : list (string * sample)) (suspects : list suspect)
  : result (list suspect) :=
  match items with
  | [] => Ok suspects
  | item :: items' =>
      (suspects' <- suspects_step baseline samples interval suspects item ;;
       suspects_loop baseline samples interval items' suspects')%py
  end.

Definition suspects (baseline final : snapshot) (samples interval : Z)
  : result (list suspect) :=
  (l <- suspects_loop baseline samples interval final [] ;;
   Ok (sort_reverse s_d_total l))%py.

(** The rows of the final table: each suspect with its [est_day]. *)
Fixpoint final_rows (l : list suspect) : result (list (suspect * float)) :=
  match l with
  | [] => Ok []
  | s :: l' =>
      (e <- est_day (s_rate s) ;;
       rows <- final_rows l' ;;
       Ok ((s, e) :: rows))%py
  end.

(** *** main: the sampling loop

    The operating system is an oracle from the number of the call to its
    reply; what the program does to the outside is a trace.  Writing a line
    to standard output is taken to succeed; the formatting of the lines is
    not part of the trace. *)

Inductive output : Set :=
| Out_banner (interval samples : Z)
| Out_baseline (n : nat)                       (* "Baseline captured: n tags" *)
| Out_sleep (seconds : Z)                      (* time.sleep *)
| Out_growth (elapsed : Z) (rows : list grower)  (* [] prints "(none exceeding threshold)" *)
| Out_final (rows : list (suspect * float)).   (* [] prints "No tags grew significantly" *)

Record world : Set := mk_world {
  calls : nat;
  trace : list output
}.

Definition io (A : Type) : Type := world -> result A * world.

Definition io_ret {A : Type} (a : A) : io A := fun w => (Ok a, w).

Definition io_bind {A B : Type} (m : io A) (k : A -> io B) : io B :=
  fun w =>
    match m w with
    | (Ok a, w') => k a w'
    | (Raise e, w') => (Raise e, w')
    end.

Definition io_lift {A : Type} (r : result A) : io A := fun w => (r, w).

Definition emit (o : output) : io unit :=
  fun w => (Ok tt, {| calls := calls w; trace := trace w ++ [o] |}).

Declare Scope io_scope.
Delimit Scope io_scope with io.
Notation "x <- m ;; k" := (io_bind m (fun x => k))
  (at level 61, m at next level, right associativity) : io_scope.
Notation "m ;; k" := (io_bind m (fun _ => k))
  (at level 61, right associativity) : io_scope.

Section Main.
Variable os : nat -> os_reply.

(** A call of [get_pool_tags()] inside [main]. *)
Definition call_get_pool_tags : io snapshot :=
  fun w =>
    (get_pool_tags (os (calls w)),
     {| calls := S (calls w); trace := trace w |}).

(** [time.sleep(interval)] with an int: OverflowError when the length does
    not fit 64 bits in nanoseconds, that is beyond 9223372036 seconds in
    either direction, then ValueError on a negative length.  The timers of
    some platforms refuse lengths below that limit too; the properties of
    the loop are stated for lengths that every platform accepts. *)
Definition sleep (interval : Z) : io unit :=
  if (interval <? -9223372036) || (9223372036 <? interval)
  then io_lift (Raise OverflowError)
  else if interval <? 0 then io_lift (Raise ValueError)
  else emit (Out_sleep interval).

Definition history : Type := list (Z * list grower).

(** [for i in range(1, samples + 1)], with [n] iterations left. *)
Fixpoint sampling_loop (interval : Z) (baseline : snapshot)
  (n : nat) (i : Z) (h : history) : io history :=
  match n with
  | O => io_ret h
  | S n' =>
      (sleep interval ;;
       current <- call_get_pool_tags ;;
       let elapsed := i * interval in
       let growers := growers baseline current in
       emit (Out_growth elapsed (firstn 15 growers)) ;;
       sampling_loop interval baseline n' (i + 1) (h ++ [(elapsed, growers)]))%io
  end.

Definition main (interval samples : Z) : io unit :=
  (emit (Out_banner interval samples) ;;
   baseline <- call_get_pool_tags ;;
   emit (Out_baseline (List.length baseline)) ;;
   _ <- sampling_loop interval baseline (Z.to_nat samples) 1 [] ;;
   final <- call_get_pool_tags ;;
   suspects <- io_lift (suspects baseline final samples interval) ;;
   rows <- io_lift (final_rows suspects) ;;
   emit (Out_final rows))%io.

End Main.

Definition start : world := {| calls := 0; trace := [] |}.

(** ** The record layout in the specification's words

    Readings of the buffer byte by byte, against which the decoder is
    compared. *)

Definition byte_at (data : list byte) (i : nat) : Z :=
  Z.of_N (Byte.to_N (nth i data x00)).

Definition u32_le_at (data : list byte) (i : nat) : Z :=
  byte_at data i + 2 ^ 8 * byte_at data (i + 1)
  + 2 ^ 16 * byte_at data (i + 2) + 2 ^ 24 * byte_at data (i + 3).

Definition u64_le_at (data : list byte) (i : nat) : Z :=
  u32_le_at data i + 2 ^ 32 * u32_le_at data (i + 4).

(** The ASCII character of a byte in [[32,126]], ['.'] for any other. *)
Definition spec_char (b : byte) : ascii :=
  let n := Byte.to_N b in
  if ((32 <=? n) && (n <=? 126))%N then ascii_of_N n else "."%char.

Definition spec_tag (data : list byte) (offset : nat) : string :=
  String (spec_char (nth offset data x00))
    (String (spec_char (nth (offset + 1) data x00))
       (String (spec_char (nth (offset + 2) data x00))
          (String (spec_char (nth (offset + 3) data x00)) EmptyString))).

Definition spec_counters (data : list byte) (offset : nat) : counters :=
  {| pa := u32_le_at data (offset + 4);
     pf := u32_le_at data (offset + 8);
     pu := u64_le_at data (offset + 16);
     npa := u32_le_at data (offset + 24);
     npf := u32_le_at data (offset + 28);
     npu := u64_le_at data (offset + 32) |}.

(** The header count and the number of whole records after the header. *)
Definition header_count (data : list byte) : Z := u32_le_at data 0.

Definition records_that_fit (data : list byte) : Z :=
  (Z.of_nat (List.length data) - 8) / 40.

(** The records a loop of [n] iterations from [offset] gets to read. *)
Definition records_from (data : list byte) (n offset : nat)
  : list (string * sample) :=
  map (fun i => (spec_tag data (offset + 40 * i),
                 sample_of (spec_counters data (offset + 40 * i))))
      (seq 0 (Nat.min n ((List.length data - offset) / 40))).

Definition assign_all (tags : snapshot) (items : list (string * sample)) : snapshot :=
  fold_left (fun d e => dict_set d (fst e) (snd e)) items tags.

Fixpoint distinct (l : list string) : bool :=
  match l with
  | [] => true
  | k :: l' => negb (existsb (String.eqb k) l') && distinct l'
  end.

(** ** The rate formulas in the specification's words

    [(delta / 1024) / (elapsed / 60)] and [rate * 60 * 24 / 1024], every
    operation the correctly rounded binary64 one. *)






(** The order the specification asks of the growth table: larger delta
    first, equal deltas by tag ascending. *)
Definition spec_order (a b : grower) : Prop :=
  g_d_total a > g_d_total b \/
  (g_d_total a = g_d_total b /\ String.leb (g_tag a) (g_tag b) = true).

(** ** Buffers for the examples *)

Module Vectors.

Definition byte_of_Z (z : Z) : byte :=
  match Byte.of_N (Z.to_N (z mod 256)) with
  | Some b => b
  | None => x00
  end.

Fixpoint le_bytes (n : nat) (z : Z) : list byte :=
  match n with
  | O => []
  | S n' => byte_of_Z z :: le_bytes n' (z / 256)
  end.

Definition header (count : Z) : list byte := le_bytes 4 count ++ le_bytes 4 0.

Definition record (tag : string) (pa pf pu npa npf npu : Z) : list byte :=
  list_byte_of_string tag ++ le_bytes 4 pa ++ le_bytes 4 pf ++ le_bytes 4 0
  ++ le_bytes 8 pu ++ le_bytes 4 npa ++ le_bytes 4 npf ++ le_bytes 8 npu.

(** Two records, the second with more frees than allocations. *)
Definition two_tags : list byte :=
  header 2 ++ record "AAAA" 100 40 1000000 5 6 77
           ++ record "B{~}" 0 1 2 3 4 5.

(** The header announces five records, one and a half are there. *)
Definition truncated : list byte :=
  header 5 ++ record "Proc" 9 3 4096 7 7 0 ++ [x01; x02; x03].

(** Two tags that grow by the same amount, the later in the alphabet first. *)
Definition tied : list byte :=
  header 2 ++ record "BBBB" 1 0 200000 0 0 0
           ++ record "AAAA" 1 0 100000 1 0 100000.

Definition grown : list byte :=
  header 1 ++ record "AAAA" 100 40 11485760 5 6 77.

(** The first call succeeds, the second fails, the later ones succeed. *)
Definition os_one_failure (k : nat) : os_reply :=
  match k with
  | 0%nat => mk_reply 0 two_tags 88
  | 1%nat => mk_reply (-1073741820) [] 0   (* STATUS_INFO_LENGTH_MISMATCH *)
  | _ => mk_reply 0 grown 48
  end.

(** STATUS_UNSUCCESSFUL at every call. *)
Definition os_always_fails (k : nat) : os_reply := mk_reply (-1073741823) [] 0.

End Vectors.

(** ** Notions for the further properties of the decoder and of [main] *)

(** The positions of a buffer that no read touches: header bytes 4-7 and
    bytes 12-15 of every record. *)
Definition reserved (p : nat) : bool :=
  ((4 <=? p) && (p <? 8) || (8 <=? p) && (12 <=? (p - 8) mod 40) && ((p - 8) mod 40 <? 16))%nat.

(** The value most recently assigned to [k] in a sequence of assignments. *)
Definition last_assigned (items : list (string * sample)) (k : string) : option sample :=
  option_map snd (find (fun e => String.eqb (fst e) k) (rev items)).

(** A byte that [tag_char] keeps. *)
Definition printable (b : byte) : Prop := (32 <= Byte.to_N b <= 126)%N.

(** A reply [get_pool_tags] can take: a failure status, or a buffer that
    holds at least the four bytes of the record count. *)
Definition reply_decodable (r : os_reply) : Prop :=
  status r <> 0 \/ (4 <= List.length (firstn (ret_len r) (raw r)))%nat.

(** The longest sleep that every platform takes: the timer of Windows
    counts milliseconds in 32 bits. *)
Definition sleep_portable_max : Z := 4294967.

(** A number of machine size, which every interpreter prints. *)
Definition machine_int (z : Z) : Prop := - 2 ^ 63 <= z < 2 ^ 63.

(** What is expected of every growth table that is printed. *)
Definition table_ok (o : output) : Prop :=
  match o with
  | Out_growth _ rows =>
      (List.length rows <= 15)%nat /\
      Forall (fun r => g_d_total r > 102400) rows /\
      StronglySorted (fun a b => g_d_total a >= g_d_total b) rows
  | _ => True
  end.

(** The number of growth tables in a trace. *)
Definition growth_tables (t : list output) : nat :=
  List.length
    (filter (fun o => match o with Out_growth _ _ => true | _ => false end) t).

(** What the round table and the final table have in common. *)
Definition grower_summary (g : grower) : string * Z * Z :=
  (g_tag g, g_d_total g, g_total g).

Definition suspect_summary (x : suspect) : string * Z * Z :=
  (s_tag x, s_d_total x, s_total x).

(** ** Further buffers and replies for the examples *)

Module MoreVectors.

(** Three records, the first and the last with the same tag. *)
Definition repeated_tag : list byte :=
  Vectors.header 3 ++ Vectors.record "AAAA" 1 0 10 1 0 20
                   ++ Vectors.record "BBBB" 2 0 30 2 0 40
                   ++ Vectors.record "AAAA" 3 1 50 4 2 60.

(** [Vectors.two_tags] with other bytes at the reserved positions. *)
Definition two_tags_reserved : list byte :=
  Vectors.le_bytes 4 2 ++ [xff; xfe; xfd; xfc]
  ++ list_byte_of_string "AAAA" ++ Vectors.le_bytes 4 100 ++ Vectors.le_bytes 4 40
  ++ [x11; x22; x33; x44]
  ++ Vectors.le_bytes 8 1000000 ++ Vectors.le_bytes 4 5 ++ Vectors.le_bytes 4 6
  ++ Vectors.le_bytes 8 77
  ++ Vectors.record "B{~}" 0 1 2 3 4 5.

(** A tag with two bytes outside the printable range. *)
Definition raw_tag : list byte :=
  Vectors.header 1 ++ [x4e; x00; x74; xe9] ++ Vectors.le_bytes 36 0.

(** Two records whose raw tags differ and are both rendered "....". *)
Definition colliding_tags : list byte :=
  Vectors.header 2
  ++ [x00; x00; x00; x00] ++ Vectors.le_bytes 4 7 ++ Vectors.le_bytes 4 2
  ++ Vectors.le_bytes 4 0 ++ Vectors.le_bytes 8 4096 ++ Vectors.le_bytes 4 1
  ++ Vectors.le_bytes 4 1 ++ Vectors.le_bytes 8 512
  ++ [x01; x01; x01; x01] ++ Vectors.le_bytes 4 9 ++ Vectors.le_bytes 4 4
  ++ Vectors.le_bytes 4 0 ++ Vectors.le_bytes 8 8192 ++ Vectors.le_bytes 4 3
  ++ Vectors.le_bytes 4 2 ++ Vectors.le_bytes 8 1024.

(** Every call succeeds; the tag has grown by 10 MiB after the baseline. *)
Definition os_growing (k : nat) : os_reply :=
  match k with
  | 0%nat => mk_reply 0 Vectors.two_tags 88
  | _ => mk_reply 0 Vectors.grown 48
  end.

(** Seventeen tags, "AAAA" to "QAAA", all above the threshold. *)
Definition many_tags : snapshot :=
  map (fun i => (String (ascii_of_nat (65 + i)) "AAA",
                 mk_sample (200000 + 1000 * Z.of_nat i) 0 0 0))
      (seq 0 17).

End MoreVectors.

(** * Properties *)

(** ** Lists and slices *)

Lemma nth_skipn_add {A : Type} (l : list A) (off i : nat) (d : A) :
  nth i (skipn off l) d = nth (off + i) l d.
Proof.
  revert l; induction off as [|off IH]; intros l; simpl.
  - reflexivity.
  - destruct l as [|a l]; [now destruct i | apply IH].
Qed.

Lemma firstn_map_nth {A : Type} (d : A) (l : list A) (n : nat) :
  (n <= List.length l)%nat ->
  firstn n l = map (fun i => nth i l d) (seq 0 n).
Proof.
  revert n; induction l as [|a l IH]; intros [|n] Hn; simpl in *;
    try reflexivity; try lia.
  rewrite <- seq_shift, map_map. f_equal. apply IH. lia.
Qed.

Lemma slice_map_nth {A : Type} (d : A) (l : list A) (off n : nat) :
  (off + n <= List.length l)%nat ->
  slice l off (off + n) = map (fun i => nth (off + i) l d) (seq 0 n).
Proof.
  intros Hlen. unfold slice.
  replace (off + n - off)%nat with n by lia.
  rewrite (firstn_map_nth d) by (rewrite length_skipn; lia).
  apply map_ext. intros i. apply nth_skipn_add.
Qed.

(** ** struct.unpack_from *)

Lemma byte_at_range (data : list byte) (i : nat) : 0 <= byte_at data i < 256.
Proof.
  unfold byte_at. pose proof (Byte.to_N_bounded (nth i data x00)). lia.
Qed.

Lemma u32_le_at_range (data : list byte) (i : nat) : 0 <= u32_le_at data i < 2 ^ 32.
Proof.
  unfold u32_le_at.
  pose proof (byte_at_range data i). pose proof (byte_at_range data (i + 1)).
  pose proof (byte_at_range data (i + 2)). pose proof (byte_at_range data (i + 3)).
  lia.
Qed.

Lemma u64_le_at_range (data : list byte) (i : nat) : 0 <= u64_le_at data i < 2 ^ 64.
Proof.
  unfold u64_le_at.
  pose proof (u32_le_at_range data i). pose proof (u32_le_at_range data (i + 4)).
  lia.
Qed.

Lemma unpack1_I (data : list byte) (off : nat) :
  (off + 4 <= List.length data)%nat ->
  Struct.unpack1 Struct.fmt_I data off = Ok (u32_le_at data off).
Proof.
  intros Hlen. unfold Struct.unpack1, Struct.unpack_from. cbn [Struct.calcsize fold_right Struct.size_of].
  replace (off + (4 + 0) <=? List.length data)%nat with true
    by (symmetry; apply Nat.leb_le; lia).
  rewrite (slice_map_nth x00) by lia.
  with_strategy opaque [Z.mul Z.add] simpl. unfold u32_le_at, byte_at.
  rewrite Nat.add_0_r. f_equal. lia.
Qed.

Lemma unpack1_Q (data : list byte) (off : nat) :
  (off + 8 <= List.length data)%nat ->
  Struct.unpack1 Struct.fmt_Q data off = Ok (u64_le_at data off).
Proof.
  intros Hlen. unfold Struct.unpack1, Struct.unpack_from. cbn [Struct.calcsize fold_right Struct.size_of].
  replace (off + (8 + 0) <=? List.length data)%nat with true
    by (symmetry; apply Nat.leb_le; lia).
  rewrite (slice_map_nth x00) by lia.
  with_strategy opaque [Z.mul Z.add] simpl. unfold u64_le_at, u32_le_at, byte_at.
  rewrite Nat.add_0_r.
  replace (off + 4 + 1)%nat with (off + 5)%nat by lia.
  replace (off + 4 + 2)%nat with (off + 6)%nat by lia.
  replace (off + 4 + 3)%nat with (off + 7)%nat by lia.
  f_equal. lia.
Qed.

Lemma unpack2_II (data : list byte) (off : nat) :
  (off + 8 <= List.length data)%nat ->
  Struct.unpack2 Struct.fmt_I Struct.fmt_I data off
  = Ok (u32_le_at data off, u32_le_at data (off + 4)).
Proof.
  intros Hlen. unfold Struct.unpack2, Struct.unpack_from. cbn [Struct.calcsize fold_right Struct.size_of].
  replace (off + (4 + (4 + 0)) <=? List.length data)%nat with true
    by (symmetry; apply Nat.leb_le; lia).
  rewrite (slice_map_nth x00) by lia.
  with_strategy opaque [Z.mul Z.add] simpl. unfold u32_le_at, byte_at.
  rewrite Nat.add_0_r.
  replace (off + 4 + 1)%nat with (off + 5)%nat by lia.
  replace (off + 4 + 2)%nat with (off + 6)%nat by lia.
  replace (off + 4 + 3)%nat with (off + 7)%nat by lia.
  do 2 f_equal; lia.
Qed.

Lemma unpack1_short (c : Struct.code) (data : list byte) (off : nat) :
  (List.length data < off + Struct.size_of c)%nat ->
  Struct.unpack1 c data off = Raise StructError.
Proof.
  intros Hlen. unfold Struct.unpack1, Struct.unpack_from. cbn [Struct.calcsize fold_right].
  replace (off + (Struct.size_of c + 0) <=? List.length data)%nat with false
    by (symmetry; apply Nat.leb_gt; lia).
  reflexivity.
Qed.

(** ** dict *)

Lemma dict_set_in {V : Type} (d : dict V) (k : string) (v : V) (e : string * V) :
  In e (dict_set d k v) -> In e d \/ e = (k, v).
Proof.
  induction d as [|[k' v'] d IH]; simpl.
  - intros [<-|[]]. now right.
  - destruct (String.eqb_spec k' k) as [->|Hne]; simpl.
    + intros [<-|Hin]; [now right | left; now right].
    + intros [<-|Hin]; [left; now left |].
      destruct (IH Hin) as [H|H]; [left; now right | now right].
Qed.

Lemma keys_dict_set_in {V : Type} (d : dict V) (k : string) (v : V) :
  In k (keys d) -> keys (dict_set d k v) = keys d.
Proof.
  unfold keys. induction d as [|[k' v'] d IH]; simpl; [intros [] |].
  destruct (String.eqb_spec k' k) as [->|Hne]; simpl; [reflexivity |].
  intros [Heq|Hin]; [contradiction | now rewrite IH].
Qed.

Lemma keys_dict_set_notin {V : Type} (d : dict V) (k : string) (v : V) :
  ~ In k (keys d) -> keys (dict_set d k v) = keys d ++ [k].
Proof.
  unfold keys. induction d as [|[k' v'] d IH]; simpl; [reflexivity |].
  intros Hnot. destruct (String.eqb_spec k' k) as [->|Hne]; simpl.
  - exfalso. apply Hnot. now left.
  - rewrite IH; [reflexivity | intros Hin; apply Hnot; now right].
Qed.

Lemma dict_get_none {V : Type} (d : dict V) (k : string) :
  dict_get d k = None <-> ~ In k (keys d).
Proof.
  unfold keys. induction d as [|[k' v'] d IH]; simpl.
  - tauto.
  - destruct (String.eqb_spec k' k) as [->|Hne].
    + split; [discriminate | intros H; exfalso; apply H; now left].
    + rewrite IH. tauto.
Qed.

Lemma existsb_eqb_in (k : string) (l : list string) :
  existsb (String.eqb k) l = true <-> In k l.
Proof.
  rewrite existsb_exists. split.
  - intros [x [Hin Heq]]. apply String.eqb_eq in Heq. now subst.
  - intros Hin. exists k. split; [assumption | apply String.eqb_refl].
Qed.

Lemma distinct_NoDup (l : list string) : distinct l = true <-> NoDup l.
Proof.
  induction l as [|k l IH]; simpl.
  - split; [constructor | reflexivity].
  - rewrite andb_true_iff, negb_true_iff, IH. split.
    + intros [Hk Hl]. constructor; [| assumption].
      intros Hin. apply existsb_eqb_in in Hin. congruence.
    + intros Hnd. inversion Hnd as [|? ? Hk Hl]; subst. split; [| assumption].
      destruct (existsb (String.eqb k) l) eqn:E; [| reflexivity].
      apply existsb_eqb_in in E. contradiction.
Qed.

Lemma assign_all_in (tags : snapshot) (items : list (string * sample))
  (e : string * sample) :
  In e (assign_all tags items) -> In e tags \/ In e items.
Proof.
  unfold assign_all. revert tags.
  induction items as [|[k v] items IH]; intros tags; simpl; [tauto |].
  intros Hin. destruct (IH _ Hin) as [H|H]; [| right; now right].
  destruct (dict_set_in _ _ _ _ H) as [H'|H']; [now left | right; now left].
Qed.

Lemma assign_all_keys (tags : snapshot) (items : list (string * sample)) :
  NoDup (keys tags ++ map fst items) ->
  keys (assign_all tags items) = keys tags ++ map fst items.
Proof.
  unfold assign_all. revert tags.
  induction items as [|[k v] items IH]; intros tags Hnd; simpl.
  - now rewrite app_nil_r.
  - assert (Hk : ~ In k (keys tags)).
    { intros Hin. apply NoDup_remove_2 in Hnd. apply Hnd.
      apply in_or_app. now left. }
    rewrite IH; rewrite keys_dict_set_notin by assumption.
    + now rewrite <- app_assoc.
    + rewrite <- app_assoc. exact Hnd.
Qed.

Lemma assign_all_length_le (tags : snapshot) (items : list (string * sample)) :
  (List.length (assign_all tags items) <= List.length tags + List.length items)%nat.
Proof.
  unfold assign_all. revert tags.
  induction items as [|[k v] items IH]; intros tags; simpl; [lia |].
  etransitivity; [apply IH |].
  assert (H : (List.length (dict_set tags k v) <= S (List.length tags))%nat).
  { clear. induction tags as [|[k' v'] d IHd]; simpl; [lia |].
    destruct (String.eqb k' k); simpl; lia. }
  lia.
Qed.

(** ** The decoder *)

Lemma tag_char_spec (b : byte) : tag_char b = spec_char b.
Proof. destruct b; reflexivity. Qed.

Lemma spec_char_printable (b : byte) :
  (32 <= nat_of_ascii (spec_char b) <= 126)%nat.
Proof. destruct b; split; apply Nat.leb_le; vm_compute; reflexivity. Qed.

Lemma tag_at_spec (data : list byte) (offset : nat) :
  (offset + 4 <= List.length data)%nat ->
  tag_at data offset = spec_tag data offset.
Proof.
  intros Hlen. unfold tag_at, spec_tag.
  rewrite (slice_map_nth x00) by lia. simpl.
  rewrite !tag_char_spec, Nat.add_0_r. reflexivity.
Qed.

Lemma read_counters_spec (data : list byte) (offset : nat) :
  (offset + 40 <= List.length data)%nat ->
  read_counters data offset = Ok (spec_counters data offset).
Proof.
  intros Hlen. unfold read_counters, spec_counters.
  rewrite !unpack2_II, !unpack1_Q by lia. simpl.
  replace (offset + 4 + 4)%nat with (offset + 8)%nat by lia.
  replace (offset + 24 + 4)%nat with (offset + 28)%nat by lia.
  reflexivity.
Qed.

Lemma records_from_zero (data : list byte) (n offset : nat) :
  (List.length data < offset + 40)%nat -> records_from data n offset = [].
Proof.
  intros Hlen. unfold records_from.
  rewrite Nat.div_small by lia. now rewrite Nat.min_0_r.
Qed.

Lemma records_from_succ (data : list byte) (n offset : nat) :
  (offset + 40 <= List.length data)%nat ->
  records_from data (S n) offset
  = (spec_tag data offset, sample_of (spec_counters data offset))
      :: records_from data n (offset + 40).
Proof.
  intros Hlen. unfold records_from.
  replace (List.length data - offset)%nat
    with (List.length data - (offset + 40) + 1 * 40)%nat by lia.
  rewrite Nat.div_add by lia.
  replace (Nat.min (S n) ((List.length data - (offset + 40)) / 40 + 1))
    with (S (Nat.min n ((List.length data - (offset + 40)) / 40))) by lia.
  cbn [seq map]. rewrite Nat.mul_0_r, Nat.add_0_r. f_equal.
  rewrite <- seq_shift, map_map. apply map_ext. intros i.
  replace (offset + 40 * S i)%nat with (offset + 40 + 40 * i)%nat by lia.
  reflexivity.
Qed.

Lemma decode_loop_spec (data : list byte) (n offset : nat) (tags : snapshot) :
  decode_loop data n offset tags
  = Ok (assign_all tags (records_from data n offset)).
Proof.
  revert offset tags. induction n as [|n IH]; intros offset tags.
  - reflexivity.
  - cbn [decode_loop]. destruct (Nat.ltb_spec (List.length data) (offset + 40)) as [Hlt|Hge].
    + now rewrite records_from_zero.
    + rewrite read_counters_spec, tag_at_spec, records_from_succ by lia.
      cbn [Py.bind]. apply IH.
Qed.

Lemma decode_spec (data : list byte) :
  (4 <= List.length data)%nat ->
  decode data
  = Ok (assign_all [] (records_from data (Z.to_nat (header_count data)) 8)).
Proof.
  intros Hlen. unfold decode. rewrite unpack1_I by lia.
  cbn [Py.bind]. apply decode_loop_spec.
Qed.

Lemma decode_short_header (data : list byte) :
  (List.length data < 4)%nat -> decode data = Raise StructError.
Proof.
  intros Hlen. unfold decode. now rewrite unpack1_short by (simpl; lia).
Qed.

Lemma decode_below_one_record (data : list byte) :
  (4 <= List.length data < 48)%nat -> decode data = Ok [].
Proof.
  intros Hlen. rewrite decode_spec by lia.
  now rewrite records_from_zero by lia.
Qed.

Lemma records_from_length (data : list byte) :
  (8 <= List.length data)%nat ->
  Z.of_nat (List.length (records_from data (Z.to_nat (header_count data)) 8))
  = Z.min (header_count data) (records_that_fit data).
Proof.
  intros Hlen. unfold records_from, records_that_fit.
  rewrite length_map, length_seq.
  pose proof (u32_le_at_range data 0) as Hc. fold (header_count data) in Hc.
  rewrite Nat2Z.inj_min, Z2Nat.id by lia.
  rewrite Nat2Z.inj_div, Nat2Z.inj_sub by lia. reflexivity.
Qed.

Lemma records_from_in (data : list byte) (n offset : nat) (k : string) (s : sample) :
  In (k, s) (records_from data n offset) ->
  exists o : nat, k = spec_tag data o /\ s = sample_of (spec_counters data o).
Proof.
  unfold records_from. intros Hin. apply in_map_iff in Hin.
  destruct Hin as [i [Heq _]]. exists (offset + 40 * i)%nat.
  split; [exact (eq_sym (f_equal fst Heq)) | exact (eq_sym (f_equal snd Heq))].
Qed.

(** Without the assumption that tags are distinct: a repeated tag
    overwrites its earlier entry, so the Snapshot can only be smaller. *)
Lemma decode_at_most (data : list byte) :
  (8 <= List.length data)%nat ->
  exists snap,
    decode data = Ok snap /\
    Z.of_nat (List.length snap) <= Z.min (header_count data) (records_that_fit data).
Proof.
  intros Hlen.
  exists (assign_all [] (records_from data (Z.to_nat (header_count data)) 8)).
  split; [apply decode_spec; lia |].
  rewrite <- records_from_length by assumption.
  pose proof (assign_all_length_le []
                (records_from data (Z.to_nat (header_count data)) 8)) as Hle.
  cbn [List.length] in Hle. lia.
Qed.

(** C2: an iteration of the decoding loop on a whole record at [offset]
    reads record bytes 0-3 as the tag, each byte as its ASCII character when
    in [[32,126]] and as ['.'] otherwise, bytes 4-7 and 8-11 as the paged
    allocation and free counts, bytes 16-23 as the paged bytes used, bytes
    24-27 and 28-31 as the nonpaged allocation and free counts and bytes
    32-39 as the nonpaged bytes used, all little-endian, and stores the
    entry built from them. *)
Theorem record_fields_at_offsets (data : list byte) (n offset : nat) (tags : snapshot) :
  (offset + 40 <= List.length data)%nat ->
  tag_at data offset = spec_tag data offset /\
  read_counters data offset = Ok (spec_counters data offset) /\
  decode_loop data (S n) offset tags
  = decode_loop data n (offset + 40)
      (dict_set tags (spec_tag data offset) (sample_of (spec_counters data offset))).
Proof.
  intros Hlen. split; [apply tag_at_spec; lia | split; [now apply read_counters_spec |]].
  cbn [decode_loop].
  destruct (Nat.ltb_spec (List.length data) (offset + 40)) as [Hlt|_]; [lia |].
  rewrite read_counters_spec, tag_at_spec by lia. reflexivity.
Qed.

Lemma record_fields_at_offsets_witness :
  tag_at Vectors.two_tags 48 = "B{~}"%string /\
  read_counters Vectors.two_tags 8 = Ok (mk_counters 100 40 1000000 5 6 77) /\
  decode_loop Vectors.two_tags 1 48 []
  = Ok [("B{~}"%string, mk_sample 2 5 (-1) (-1))].
Proof.
  destruct (record_fields_at_offsets Vectors.two_tags 0 48 [])
    as [Htag [_ Hloop]]; [vm_compute; lia |].
  destruct (record_fields_at_offsets Vectors.two_tags 0 8 [])
    as [_ [Hread _]]; [vm_compute; lia |].
  rewrite Htag, Hread, Hloop. vm_compute. repeat split.
Defined.

(** C6, at the failing input: a buffer shorter than the 4-byte header makes
    the read of the record count raise struct.error; nothing is returned. *)
Theorem header_shorter_than_four_raises :
  decode [] = Raise StructError /\
  decode [x02; x00; x00] = Raise StructError /\
  get_pool_tags (mk_reply 0 [] 0) = Raise StructError.
Proof. repeat split. Qed.

Lemma records_from_in_index (data : list byte) (n offset : nat) (k : string)
  (s : sample) :
  In (k, s) (records_from data n offset) ->
  exists i : nat,
    (i < n)%nat /\
    (offset + 40 * i + 40 <= List.length data)%nat /\
    k = spec_tag data (offset + 40 * i) /\
    s = sample_of (spec_counters data (offset + 40 * i)).
Proof.
  unfold records_from. intros Hin. apply in_map_iff in Hin.
  destruct Hin as [i [Heq Hi]]. apply in_seq in Hi. exists i.
  pose proof (Nat.Div0.mul_div_le (List.length data - offset) 40) as Hdiv.
  split; [lia | split; [nia | split]].
  - exact (eq_sym (f_equal fst Heq)).
  - exact (eq_sym (f_equal snd Heq)).
Qed.

(** C8, as the code has it: every entry of a decoded Snapshot comes from a
    record of the buffer, the [i]-th say, at offset [8 + 40 * i].  Its byte
    totals are the 64-bit values read there, in [[0, 2^64)]; the counters
    read there are in [[0, 2^32)]; its outstanding values are the
    allocation count minus the free count, strictly between [-2^32] and
    [2^32], and negative exactly when the free count exceeds the allocation
    count. *)
Theorem decoded_fields_range (data : list byte) (snap : snapshot)
  (tag : string) (s : sample) :
  decode data = Ok snap ->
  In (tag, s) snap ->
  exists i : nat,
    (i < Z.to_nat (header_count data))%nat /\
    (8 + 40 * i + 40 <= List.length data)%nat /\
    tag = spec_tag data (8 + 40 * i) /\
    (paged s = u64_le_at data (8 + 40 * i + 16) /\
     nonpaged s = u64_le_at data (8 + 40 * i + 32) /\
     p_out s = u32_le_at data (8 + 40 * i + 4) - u32_le_at data (8 + 40 * i + 8) /\
     np_out s = u32_le_at data (8 + 40 * i + 24) - u32_le_at data (8 + 40 * i + 28)) /\
    (0 <= paged s < 2 ^ 64 /\ 0 <= nonpaged s < 2 ^ 64) /\
    (0 <= u32_le_at data (8 + 40 * i + 4) < 2 ^ 32 /\
     0 <= u32_le_at data (8 + 40 * i + 8) < 2 ^ 32 /\
     0 <= u32_le_at data (8 + 40 * i + 24) < 2 ^ 32 /\
     0 <= u32_le_at data (8 + 40 * i + 28) < 2 ^ 32) /\
    (- 2 ^ 32 < p_out s < 2 ^ 32 /\ - 2 ^ 32 < np_out s < 2 ^ 32) /\
    (p_out s < 0 <->
     u32_le_at data (8 + 40 * i + 4) < u32_le_at data (8 + 40 * i + 8)) /\
    (np_out s < 0 <->
     u32_le_at data (8 + 40 * i + 24) < u32_le_at data (8 + 40 * i + 28)).
Proof.
  intros Hdec Hin.
  destruct (Nat.lt_ge_cases (List.length data) 4) as [Hlt|Hge].
  - rewrite decode_short_header in Hdec by assumption. discriminate.
  - rewrite decode_spec in Hdec by assumption. injection Hdec as <-.
    apply assign_all_in in Hin. destruct Hin as [[]|Hin].
    apply records_from_in_index in Hin.
    destruct Hin as [i [Hi [Hfit [-> ->]]]]. exists i.
    set (off := (8 + 40 * i)%nat) in *.
    pose proof (u32_le_at_range data (off + 4)).
    pose proof (u32_le_at_range data (off + 8)).
    pose proof (u64_le_at_range data (off + 16)).
    pose proof (u32_le_at_range data (off + 24)).
    pose proof (u32_le_at_range data (off + 28)).
    pose proof (u64_le_at_range data (off + 32)).
    cbn [sample_of spec_counters paged nonpaged p_out np_out pa pf pu npa npf npu].
    repeat split; try assumption; try reflexivity; lia.
Qed.

Lemma decoded_fields_range_witness :
  exists i : nat,
    (i < Z.to_nat (header_count Vectors.two_tags))%nat /\
    (8 + 40 * i + 40 <= List.length Vectors.two_tags)%nat /\
    "B{~}"%string = spec_tag Vectors.two_tags (8 + 40 * i) /\
    (2 = u64_le_at Vectors.two_tags (8 + 40 * i + 16) /\
     5 = u64_le_at Vectors.two_tags (8 + 40 * i + 32) /\
     -1 = u32_le_at Vectors.two_tags (8 + 40 * i + 4)
          - u32_le_at Vectors.two_tags (8 + 40 * i + 8) /\
     -1 = u32_le_at Vectors.two_tags (8 + 40 * i + 24)
          - u32_le_at Vectors.two_tags (8 + 40 * i + 28)) /\
    (0 <= 2 < 2 ^ 64 /\ 0 <= 5 < 2 ^ 64) /\
    (0 <= u32_le_at Vectors.two_tags (8 + 40 * i + 4) < 2 ^ 32 /\
     0 <= u32_le_at Vectors.two_tags (8 + 40 * i + 8) < 2 ^ 32 /\
     0 <= u32_le_at Vectors.two_tags (8 + 40 * i + 24) < 2 ^ 32 /\
     0 <= u32_le_at Vectors.two_tags (8 + 40 * i + 28) < 2 ^ 32) /\
    (- 2 ^ 32 < -1 < 2 ^ 32 /\ - 2 ^ 32 < -1 < 2 ^ 32) /\
    (-1 < 0 <->
     u32_le_at Vectors.two_tags (8 + 40 * i + 4)
     < u32_le_at Vectors.two_tags (8 + 40 * i + 8)) /\
    (-1 < 0 <->
     u32_le_at Vectors.two_tags (8 + 40 * i + 24)
     < u32_le_at Vectors.two_tags (8 + 40 * i + 28)).
Proof.
  apply (decoded_fields_range Vectors.two_tags
           [("AAAA"%string, mk_sample 1000000 77 60 (-1));
            ("B{~}"%string, mk_sample 2 5 (-1) (-1))]
           "B{~}"%string (mk_sample 2 5 (-1) (-1))).
  - vm_compute. reflexivity.
  - right. left. reflexivity.
Defined.

(** C8, as stated, fails: a record with more frees than allocations decodes
    to a negative outstanding value. *)
Lemma outstanding_can_be_negative :
  ~ (forall (data : list byte) (snap : snapshot) (tag : string) (s : sample),
        decode data = Ok snap -> In (tag, s) snap ->
        0 <= paged s /\ 0 <= nonpaged s /\ 0 <= p_out s /\ 0 <= np_out s).
Proof.
  intros H.
  assert (Hdec : decode Vectors.two_tags
                 = Ok [("AAAA"%string, mk_sample 1000000 77 60 (-1));
                       ("B{~}"%string, mk_sample 2 5 (-1) (-1))])
    by (vm_compute; reflexivity).
  specialize (H _ _ "B{~}"%string (mk_sample 2 5 (-1) (-1)) Hdec).
  destruct H as [_ [_ [Hneg _]]]; [right; left; reflexivity |].
  simpl in Hneg. lia.
Qed.

(** C9: every key of a Snapshot returned by [decode] has exactly four
    characters, each with its code in [[32,126]] (['.'] being one such). *)
Theorem decoded_keys_printable (data : list byte) (snap : snapshot) (k : string) :
  decode data = Ok snap ->
  In k (keys snap) ->
  String.length k = 4%nat /\
  Forall (fun c => (32 <= nat_of_ascii c <= 126)%nat \/ c = "."%char)
         (list_ascii_of_string k) /\
  Forall (fun c => (32 <= nat_of_ascii c <= 126)%nat) (list_ascii_of_string k).
Proof.
  intros Hdec Hin.
  destruct (Nat.lt_ge_cases (List.length data) 4) as [Hlt|Hge].
  - rewrite decode_short_header in Hdec by assumption. discriminate.
  - rewrite decode_spec in Hdec by assumption. injection Hdec as <-.
    unfold keys in Hin. apply in_map_iff in Hin.
    destruct Hin as [[k' s] [Heq Hin]]. simpl in Heq. subst k'.
    apply assign_all_in in Hin. destruct Hin as [[]|Hin].
    apply records_from_in in Hin. destruct Hin as [off [-> _]].
    unfold spec_tag. cbn [String.length list_ascii_of_string].
    split; [reflexivity | split].
    + repeat (apply Forall_cons; [left; apply spec_char_printable |]).
      apply Forall_nil.
    + repeat (apply Forall_cons; [apply spec_char_printable |]).
      apply Forall_nil.
Qed.

Lemma decoded_keys_printable_witness :
  String.length "B{~}" = 4%nat /\
  Forall (fun c => (32 <= nat_of_ascii c <= 126)%nat \/ c = "."%char)
         (list_ascii_of_string "B{~}") /\
  Forall (fun c => (32 <= nat_of_ascii c <= 126)%nat) (list_ascii_of_string "B{~}").
Proof.
  apply (decoded_keys_printable Vectors.two_tags
           [("AAAA"%string, mk_sample 1000000 77 60 (-1));
            ("B{~}"%string, mk_sample 2 5 (-1) (-1))]).
  - vm_compute. reflexivity.
  - right. left. reflexivity.
Defined.

(** ** list.sort(key=..., reverse=True) *)

Section SortFacts.
Context {A : Type} (key : A -> Z).

Lemma insert_desc_perm (x : A) (l : list A) :
  Permutation (x :: l) (insert_desc key x l).
Proof.
  induction l as [|y l IH]; simpl; [reflexivity |].
  destruct (key y <=? key x); [reflexivity |].
  rewrite perm_swap. now constructor.
Qed.

Lemma sort_reverse_perm (l : list A) : Permutation l (sort_reverse key l).
Proof.
  induction l as [|x l IH]; simpl; [constructor |].
  rewrite <- insert_desc_perm. now constructor.
Qed.

Lemma insert_desc_sorted (x : A) (l : list A) :
  StronglySorted (fun a b => key a >= key b) l ->
  StronglySorted (fun a b => key a >= key b) (insert_desc key x l).
Proof.
  induction l as [|y l IH]; intros Hs; simpl.
  - repeat constructor.
  - inversion Hs as [|? ? Hl Hy]; subst.
    destruct (Z.leb_spec (key y) (key x)) as [Hle|Hgt].
    + constructor; [assumption |].
      constructor; [lia |].
      eapply Forall_impl; [| exact Hy]. simpl. intros z Hz. lia.
    + constructor; [now apply IH |].
      eapply Permutation_Forall; [apply insert_desc_perm |].
      constructor; [lia | assumption].
Qed.

Lemma sort_reverse_sorted (l : list A) :
  StronglySorted (fun a b => key a >= key b) (sort_reverse key l).
Proof.
  induction l as [|x l IH]; simpl; [constructor | now apply insert_desc_sorted].
Qed.

(** Stability: among the elements of one key the order is the input's. *)
Lemma insert_desc_stable (d : Z) (x : A) (l : list A) :
  filter (fun a => key a =? d) (insert_desc key x l)
  = filter (fun a => key a =? d) (x :: l).
Proof.
  induction l as [|y l IH]; simpl; [reflexivity |].
  destruct (Z.leb_spec (key y) (key x)) as [Hle|Hgt]; [reflexivity |].
  simpl. rewrite IH. simpl.
  destruct (Z.eqb_spec (key y) d), (Z.eqb_spec (key x) d); try reflexivity.
  lia.
Qed.

Lemma sort_reverse_stable (d : Z) (l : list A) :
  filter (fun a => key a =? d) (sort_reverse key l)
  = filter (fun a => key a =? d) l.
Proof.
  induction l as [|x l IH]; simpl; [reflexivity |].
  rewrite insert_desc_stable. simpl. now rewrite IH.
Qed.

Lemma sort_reverse_in (x : A) (l : list A) :
  In x (sort_reverse key l) <-> In x l.
Proof.
  split; apply Permutation_in;
    [apply Permutation_sym |]; apply sort_reverse_perm.
Qed.
End SortFacts.

(** ** The growth computation *)

Lemma growers_step_app (baseline : snapshot) (acc : list grower)
  (item : string * sample) :
  growers_step baseline acc item = acc ++ growers_step baseline [] item.
Proof.
  destruct item as [tag cur]. unfold growers_step.
  destruct (_ >? _); [reflexivity | now rewrite app_nil_r].
Qed.

Lemma growers_fold (baseline : snapshot) (items : list (string * sample))
  (acc : list grower) :
  fold_left (growers_step baseline) items acc
  = acc ++ flat_map (growers_step baseline []) items.
Proof.
  revert acc. induction items as [|item items IH]; intros acc; simpl.
  - now rewrite app_nil_r.
  - rewrite IH, growers_step_app, <- app_assoc. reflexivity.
Qed.

Lemma growers_unsorted_flat_map (baseline current : snapshot) :
  growers_unsorted baseline current
  = flat_map (growers_step baseline []) current.
Proof. unfold growers_unsorted. now rewrite growers_fold. Qed.

Lemma growers_step_in (baseline : snapshot) (tag : string) (cur : sample)
  (r : grower) :
  In r (growers_step baseline [] (tag, cur)) <->
  (let base := dict_get_default baseline tag zero_sample in
   paged cur - paged base + (nonpaged cur - nonpaged base) > min_delta_kb * 1024 /\
   r = mk_grower tag (paged cur - paged base) (nonpaged cur - nonpaged base)
         (paged cur - paged base + (nonpaged cur - nonpaged base))
         (paged cur + nonpaged cur)).
Proof.
  unfold growers_step. cbv zeta.
  destruct (Z.gtb_spec
              (paged cur - paged (dict_get_default baseline tag zero_sample)
               + (nonpaged cur - nonpaged (dict_get_default baseline tag zero_sample)))
              (min_delta_kb * 1024)) as [Hgt|Hle]; cbn [In].
  - split; [intros [<-|[]]; split; [lia | reflexivity] | intros [_ ->]; now left].
  - split; [intros [] | intros [Hgt _]; lia].
Qed.

Lemma growers_in (baseline current : snapshot) (r : grower) :
  In r (growers baseline current) <->
  exists tag cur,
    In (tag, cur) current /\
    let base := dict_get_default baseline tag zero_sample in
    paged cur - paged base + (nonpaged cur - nonpaged base) > min_delta_kb * 1024 /\
    r = mk_grower tag (paged cur - paged base) (nonpaged cur - nonpaged base)
          (paged cur - paged base + (nonpaged cur - nonpaged base))
          (paged cur + nonpaged cur).
Proof.
  unfold growers. rewrite sort_reverse_in, growers_unsorted_flat_map, in_flat_map.
  split.
  - intros [[tag cur] [Hin Hr]]. exists tag, cur. split; [assumption |].
    now apply growers_step_in.
  - intros [tag [cur [Hin Hr]]]. exists (tag, cur). split; [assumption |].
    now apply growers_step_in.
Qed.

(** C3, as the code has it: every GrowthRecord returned has a
    delta_total_bytes strictly greater than the threshold of 100 KiB =
    102400 bytes, and the sequence is sorted descending by
    delta_total_bytes; records of equal delta keep the order in which their
    tags are iterated in the current Snapshot. *)
Theorem growers_above_threshold_sorted (baseline current : snapshot) :
  min_delta_kb * 1024 = 102400 /\
  Forall (fun r => g_d_total r > 102400) (growers baseline current) /\
  StronglySorted (fun a b => g_d_total a >= g_d_total b) (growers baseline current) /\
  (forall d : Z,
      filter (fun r => g_d_total r =? d) (growers baseline current)
      = filter (fun r => g_d_total r =? d)
          (flat_map (growers_step baseline []) current)).
Proof.
  split; [reflexivity | split; [| split]].
  - apply Forall_forall. intros r Hr. apply growers_in in Hr.
    destruct Hr as [tag [cur [_ [Hgt ->]]]]. cbn [g_d_total].
    change (min_delta_kb * 1024) with 102400 in Hgt. exact Hgt.
  - apply sort_reverse_sorted.
  - intros d. unfold growers.
    now rewrite sort_reverse_stable, growers_unsorted_flat_map.
Qed.

(** C3, as stated, fails: two tags that grew by the same amount are listed
    in buffer order, "BBBB" before "AAAA". *)
Lemma equal_deltas_keep_buffer_order :
  decode Vectors.tied
  = Ok [("BBBB"%string, mk_sample 200000 0 1 0);
        ("AAAA"%string, mk_sample 100000 100000 1 1)] /\
  growers [] [("BBBB"%string, mk_sample 200000 0 1 0);
              ("AAAA"%string, mk_sample 100000 100000 1 1)]
  = [mk_grower "BBBB" 200000 0 200000 200000;
     mk_grower "AAAA" 100000 100000 200000 200000] /\
  ~ Sorted spec_order
      (growers [] [("BBBB"%string, mk_sample 200000 0 1 0);
                   ("AAAA"%string, mk_sample 100000 100000 1 1)]).
Proof.
  split; [vm_compute; reflexivity | split; [vm_compute; reflexivity |]].
  intros Hs.
  change (growers [] [("BBBB"%string, mk_sample 200000 0 1 0);
                      ("AAAA"%string, mk_sample 100000 100000 1 1)])
    with [mk_grower "BBBB" 200000 0 200000 200000;
          mk_grower "AAAA" 100000 100000 200000 200000] in Hs.
  inversion Hs as [|? ? _ Hhd]; subst.
  inversion Hhd as [|? ? Hord]; subst.
  destruct Hord as [Hgt|[_ Hleb]]; [simpl in Hgt; lia | discriminate Hleb].
Qed.

(** C4: a GrowthRecord is produced exactly for the tags of the current
    Snapshot whose delta against the baseline record (the zero record when
    the baseline has none) exceeds the threshold; for a tag absent from the
    baseline the deltas are the current values minus 0; a tag that is only
    in the baseline produces no record. *)
Theorem growers_from_current_tags (baseline current : snapshot) :
  (forall r : grower,
      In r (growers baseline current) <->
      exists tag cur,
        In (tag, cur) current /\
        let base := dict_get_default baseline tag zero_sample in
        paged cur - paged base + (nonpaged cur - nonpaged base) > min_delta_kb * 1024 /\
        r = mk_grower tag (paged cur - paged base) (nonpaged cur - nonpaged base)
              (paged cur - paged base + (nonpaged cur - nonpaged base))
              (paged cur + nonpaged cur)) /\
  (forall tag cur,
      In (tag, cur) current ->
      dict_get baseline tag = None ->
      paged cur + nonpaged cur > min_delta_kb * 1024 ->
      In (mk_grower tag (paged cur - 0) (nonpaged cur - 0)
            (paged cur - 0 + (nonpaged cur - 0)) (paged cur + nonpaged cur))
         (growers baseline current)) /\
  (forall tag,
      In tag (keys baseline) ->
      ~ In tag (keys current) ->
      forall r, In r (growers baseline current) -> g_tag r <> tag).
Proof.
  split; [intros r; apply growers_in | split].
  - intros tag cur Hin Hnone Hgt. apply growers_in. exists tag, cur.
    split; [assumption |]. unfold dict_get_default. rewrite Hnone.
    cbn [paged nonpaged zero_sample]. split; [lia | reflexivity].
  - intros tag _ Hnot r Hr Heq. apply growers_in in Hr.
    destruct Hr as [tag' [cur [Hin [_ ->]]]]. cbn [g_tag] in Heq. subst tag'.
    apply Hnot. unfold keys. apply in_map_iff. now exists (tag, cur).
Qed.

Lemma growers_from_current_tags_witness :
  In (mk_grower "BBBB" (200000 - 0) (0 - 0) (200000 - 0 + (0 - 0)) (200000 + 0))
     (growers [("AAAA"%string, mk_sample 1000000 77 60 (-1));
               ("B{~}"%string, mk_sample 2 5 (-1) (-1))]
              [("BBBB"%string, mk_sample 200000 0 1 0);
               ("AAAA"%string, mk_sample 100000 100000 1 1)]) /\
  (forall r,
      In r (growers [("AAAA"%string, mk_sample 1000000 77 60 (-1));
                     ("B{~}"%string, mk_sample 2 5 (-1) (-1))]
                    [("BBBB"%string, mk_sample 200000 0 1 0);
                     ("AAAA"%string, mk_sample 100000 100000 1 1)]) ->
      g_tag r <> "B{~}"%string).
Proof.
  destruct (growers_from_current_tags
              [("AAAA"%string, mk_sample 1000000 77 60 (-1));
               ("B{~}"%string, mk_sample 2 5 (-1) (-1))]
              [("BBBB"%string, mk_sample 200000 0 1 0);
               ("AAAA"%string, mk_sample 100000 100000 1 1)])
    as [_ [Hnew Hgone]].
  split.
  - apply (Hnew "BBBB"%string (mk_sample 200000 0 1 0)).
    + left. reflexivity.
    + reflexivity.
    + vm_compute. reflexivity.
  - apply (Hgone "B{~}"%string).
    + right. left. reflexivity.
    + simpl. intros [H|[H|[]]]; discriminate H.
Defined.

(** C10: with an empty baseline, every tag of the current Snapshot whose
    total bytes (paged plus nonpaged) strictly exceed the threshold is
    reported, with delta_total_bytes equal to that total; nothing else is
    reported. *)
Theorem empty_baseline_reports_totals (baseline current : snapshot) :
  baseline = [] ->
  (forall tag cur,
      In (tag, cur) current ->
      paged cur + nonpaged cur > min_delta_kb * 1024 ->
      In (mk_grower tag (paged cur) (nonpaged cur)
            (paged cur + nonpaged cur) (paged cur + nonpaged cur))
         (growers baseline current)) /\
  (forall r,
      In r (growers baseline current) ->
      exists cur,
        In (g_tag r, cur) current /\
        g_d_total r = paged cur + nonpaged cur /\
        g_d_total r > min_delta_kb * 1024).
Proof.
  intros ->. split.
  - intros tag cur Hin Hgt. apply growers_in. exists tag, cur.
    split; [assumption |].
    cbn [dict_get_default dict_get paged nonpaged zero_sample].
    rewrite !Z.sub_0_r. split; [assumption | reflexivity].
  - intros r Hr. apply growers_in in Hr.
    destruct Hr as [tag [cur [Hin [Hgt ->]]]].
    cbn [dict_get_default dict_get paged nonpaged zero_sample] in Hgt |- *.
    cbn [g_tag g_d_total]. exists cur.
    rewrite !Z.sub_0_r in *. auto.
Qed.

Lemma empty_baseline_reports_totals_witness :
  In (mk_grower "AAAA" 100000 100000 (100000 + 100000) (100000 + 100000))
     (growers [] [("BBBB"%string, mk_sample 200000 0 1 0);
                  ("AAAA"%string, mk_sample 100000 100000 1 1)]).
Proof.
  destruct (empty_baseline_reports_totals []
              [("BBBB"%string, mk_sample 200000 0 1 0);
               ("AAAA"%string, mk_sample 100000 100000 1 1)] eq_refl)
    as [Hall _].
  apply (Hall "AAAA"%string (mk_sample 100000 100000 1 1)).
  - right. left. reflexivity.
  - vm_compute. reflexivity.
Defined.

(** ** The sampling loop *)

Lemma get_pool_tags_failed (r : os_reply) :
  status r <> 0 -> get_pool_tags r = Ok [].
Proof.
  intros Hs. unfold get_pool_tags.
  destruct (Z.eqb_spec (status r) 0) as [Heq|_]; [contradiction | reflexivity].
Qed.

Lemma sleep_ok (interval : Z) (w : world) :
  0 <= interval <= 9223372036 ->
  sleep interval w
  = (Ok tt, {| calls := calls w; trace := trace w ++ [Out_sleep interval] |}).
Proof.
  intros Hi. unfold sleep.
  destruct (Z.ltb_spec interval (-9223372036)) as [Hlt|_]; [lia |].
  destruct (Z.ltb_spec 9223372036 interval) as [Hgt|_]; [lia |].
  destruct (Z.ltb_spec interval 0) as [Hlt|_]; [lia | reflexivity].
Qed.

Lemma sampling_loop_failed_call (os : nat -> os_reply) (interval : Z)
  (baseline : snapshot) (n : nat) (i : Z) (h : history) (w : world) :
  status (os (calls w)) <> 0 ->
  0 <= interval <= 9223372036 ->
  sampling_loop os interval baseline (S n) i h w
  = sampling_loop os interval baseline n (i + 1) (h ++ [(i * interval, [])])
      {| calls := S (calls w);
         trace := (trace w ++ [Out_sleep interval]) ++ [Out_growth (i * interval) []] |}.
Proof.
  intros Hs Hi. cbn [sampling_loop]. unfold io_bind at 1.
  rewrite sleep_ok by assumption.
  unfold io_bind at 1. unfold call_get_pool_tags. cbn [calls trace].
  rewrite get_pool_tags_failed by assumption.
  reflexivity.
Qed.

Lemma sampling_loop_all_failed (os : nat -> os_reply) (interval : Z)
  (baseline : snapshot) (n : nat) (i : Z) (h : history) (w : world) :
  (forall k, status (os k) <> 0) ->
  0 <= interval <= 9223372036 ->
  exists h' w',
    sampling_loop os interval baseline n i h w = (Ok h', w') /\
    calls w' = (calls w + n)%nat /\
    map snd h' = map snd h ++ repeat [] n.
Proof.
  intros Hs Hi. revert i h w. induction n as [|n IH]; intros i h w.
  - exists h, w. cbn. rewrite app_nil_r. repeat split; lia.
  - rewrite sampling_loop_failed_call by auto.
    destruct (IH (i + 1) (h ++ [(i * interval, [])])
                {| calls := S (calls w);
                   trace := (trace w ++ [Out_sleep interval])
                            ++ [Out_growth (i * interval) []] |})
      as [h' [w' [Heq [Hc Hl]]]].
    exists h', w'. split; [exact Heq | split].
    + rewrite Hc. cbn [calls]. lia.
    + rewrite Hl, map_app, <- app_assoc. reflexivity.
Qed.

(** C5: when the OS call reports a non-zero status, [get_pool_tags] returns
    the empty Snapshot and raises nothing.  In a round whose sleep is one
    every platform takes, the loop then prints an empty table, records an
    empty round and goes on with the next scheduled sample; when every call
    fails, all the rounds are run, each of them empty, and nothing is
    raised.  (Loop indices are of machine size, as [range] gives them.) *)
Theorem failed_call_is_an_empty_round (os : nat -> os_reply) (interval : Z)
  (baseline : snapshot) (n : nat) (i : Z) (h : history) (w : world) :
  status (os (calls w)) <> 0 ->
  get_pool_tags (os (calls w)) = Ok [] /\
  (0 <= interval <= sleep_portable_max ->
   machine_int i ->
   sampling_loop os interval baseline (S n) i h w
   = sampling_loop os interval baseline n (i + 1) (h ++ [(i * interval, [])])
       {| calls := S (calls w);
          trace := (trace w ++ [Out_sleep interval])
                   ++ [Out_growth (i * interval) []] |}) /\
  (0 <= interval <= sleep_portable_max ->
   machine_int i ->
   i + Z.of_nat n < 2 ^ 63 ->
   (forall k, status (os k) <> 0) ->
   exists h' w',
     sampling_loop os interval baseline n i h w = (Ok h', w') /\
     calls w' = (calls w + n)%nat /\
     map snd h' = map snd h ++ repeat [] n).
Proof.
  intros Hs. unfold sleep_portable_max.
  split; [now apply get_pool_tags_failed | split].
  - intros Hi _. apply sampling_loop_failed_call; [assumption | lia].
  - intros Hi _ _ Hall. apply sampling_loop_all_failed; [assumption | lia].
Qed.

Lemma failed_call_is_an_empty_round_witness :
  get_pool_tags (Vectors.os_one_failure 1) = Ok [] /\
  fst (sampling_loop Vectors.os_one_failure 30
         [("AAAA"%string, mk_sample 1000000 77 60 (-1))] 2 1 []
         {| calls := 1; trace := [] |})
  = Ok [(30, []); (60, [mk_grower "AAAA" 10485760 0 10485760 11485837])] /\
  exists h' w',
    sampling_loop Vectors.os_always_fails 30
      [("AAAA"%string, mk_sample 1000000 77 60 (-1))] 3 1 [] start = (Ok h', w') /\
    calls w' = 3%nat /\
    map snd h' = [[]; []; []].
Proof.
  destruct (failed_call_is_an_empty_round Vectors.os_one_failure 30
              [("AAAA"%string, mk_sample 1000000 77 60 (-1))] 1 1 []
              {| calls := 1; trace := [] |})
    as [Hempty [Hstep _]]; [vm_compute; discriminate |].
  destruct (failed_call_is_an_empty_round Vectors.os_always_fails 30
              [("AAAA"%string, mk_sample 1000000 77 60 (-1))] 3 1 [] start)
    as [_ [_ Hall]]; [vm_compute; discriminate |].
  split; [exact Hempty | split].
  - rewrite Hstep by (unfold sleep_portable_max, machine_int; lia).
    vm_compute. reflexivity.
  - apply Hall.
    + unfold sleep_portable_max. lia.
    + unfold machine_int. lia.
    + lia.
    + intros k. vm_compute. discriminate.
Defined.

(** ** The final summary *)

(** The same numbers through [main]'s final loop: baseline and final
    Snapshots 10 MiB apart, twenty samples thirty seconds apart. *)
Example final_summary_rows :
  (l <- suspects [("AAAA"%string, mk_sample 1000000 77 60 (-1))]
                 [("AAAA"%string, mk_sample 11485760 77 60 (-1))] 20 30 ;;
   final_rows l)%py
  = Ok [(mk_suspect "AAAA" 10485760 (S754_finite false 4503599627370496 (-42)) 11485837,
         S754_finite false 6333186975989760 (-42))].
Proof. vm_compute. reflexivity. Qed.

(** * Further properties of the decoder *)

Lemma dict_get_set {V : Type} (d : dict V) (k' k : string) (v : V) :
  dict_get (dict_set d k' v) k
  = if String.eqb k' k then Some v else dict_get d k.
Proof.
  induction d as [|[k0 v0] d IH]; simpl.
  - reflexivity.
  - destruct (String.eqb_spec k0 k') as [->|Hne]; simpl.
    + destruct (String.eqb k' k); reflexivity.
    + rewrite IH. destruct (String.eqb_spec k0 k) as [->|Hne'].
      * destruct (String.eqb_spec k' k) as [->|_]; [contradiction | reflexivity].
      * reflexivity.
Qed.

Lemma dict_set_keys_nodup {V : Type} (d : dict V) (k : string) (v : V) :
  NoDup (keys d) -> NoDup (keys (dict_set d k v)).
Proof.
  intros Hnd. destruct (in_dec string_dec k (keys d)) as [Hin|Hnot].
  - now rewrite keys_dict_set_in.
  - rewrite keys_dict_set_notin by assumption.
    apply NoDup_app; [assumption | repeat constructor; intros [] |].
    intros x Hx [<-|[]]. contradiction.
Qed.

Lemma dict_set_keys_in {V : Type} (d : dict V) (k x : string) (v : V) :
  In x (keys (dict_set d k v)) <-> In x (keys d) \/ x = k.
Proof.
  destruct (in_dec string_dec k (keys d)) as [Hin|Hnot].
  - rewrite keys_dict_set_in by assumption. split; [tauto |].
    intros [H| ->]; assumption.
  - rewrite keys_dict_set_notin by assumption. rewrite in_app_iff. simpl.
    split; [intros [H|[<-|[]]]; auto | intros [H| ->]; auto].
Qed.

Lemma assign_all_snoc (tags : snapshot) (items : list (string * sample))
  (e : string * sample) :
  assign_all tags (items ++ [e]) = dict_set (assign_all tags items) (fst e) (snd e).
Proof. unfold assign_all. now rewrite fold_left_app. Qed.

Lemma assign_all_nodup (tags : snapshot) (items : list (string * sample)) :
  NoDup (keys tags) -> NoDup (keys (assign_all tags items)).
Proof.
  induction items as [|e items IH] using rev_ind; intros Hnd.
  - exact Hnd.
  - rewrite assign_all_snoc. apply dict_set_keys_nodup. now apply IH.
Qed.

Lemma assign_all_keys_in (tags : snapshot) (items : list (string * sample))
  (k : string) :
  In k (keys (assign_all tags items)) <-> In k (keys tags) \/ In k (map fst items).
Proof.
  induction items as [|e items IH] using rev_ind.
  - simpl. tauto.
  - rewrite assign_all_snoc, dict_set_keys_in, IH, map_app, in_app_iff. simpl.
    split; [intros [[H|H]| ->] | intros [H|[H|[<-|[]]]]]; auto.
Qed.

Lemma assign_all_get (tags : snapshot) (items : list (string * sample))
  (k : string) :
  dict_get (assign_all tags items) k
  = match last_assigned items k with
    | Some v => Some v
    | None => dict_get tags k
    end.
Proof.
  unfold last_assigned.
  induction items as [|e items IH] using rev_ind.
  - reflexivity.
  - rewrite assign_all_snoc, dict_get_set, rev_app_distr. simpl.
    destruct (String.eqb (fst e) k); [reflexivity | exact IH].
Qed.

(** C1, as the code has it: for a buffer that holds its 8-byte header and
    whose little-endian count at offset 0 announces [n] records, [decode]
    never fails; it reads exactly [min(n, floor((len(buffer) - 8) / 40))]
    records of 40 bytes from offset 8 on, stopping where fewer than 40 bytes
    remain, and assigns them in buffer order.  The Snapshot has one entry
    for each distinct rendered tag among them: at most that many entries,
    and exactly that many if and only if no rendered tag is repeated. *)
Theorem decode_entry_count (data : list byte) :
  (8 <= List.length data)%nat ->
  exists snap,
    decode data = Ok snap /\
    snap = assign_all [] (records_from data (Z.to_nat (header_count data)) 8) /\
    Z.of_nat (List.length (records_from data (Z.to_nat (header_count data)) 8))
    = Z.min (header_count data) ((Z.of_nat (List.length data) - 8) / 40) /\
    NoDup (keys snap) /\
    (forall k, In k (keys snap) <->
               In k (map fst (records_from data (Z.to_nat (header_count data)) 8))) /\
    Z.of_nat (List.length snap)
    <= Z.min (header_count data) ((Z.of_nat (List.length data) - 8) / 40) /\
    (Z.of_nat (List.length snap)
     = Z.min (header_count data) ((Z.of_nat (List.length data) - 8) / 40)
     <-> NoDup (map fst (records_from data (Z.to_nat (header_count data)) 8))).
Proof.
  intros Hlen.
  set (recs := records_from data (Z.to_nat (header_count data)) 8).
  exists (assign_all [] recs).
  assert (Hcount : Z.of_nat (List.length recs)
                   = Z.min (header_count data) ((Z.of_nat (List.length data) - 8) / 40))
    by (apply records_from_length; assumption).
  assert (Hnd : NoDup (keys (assign_all [] recs)))
    by (apply assign_all_nodup; constructor).
  assert (Hin : forall k, In k (keys (assign_all [] recs)) <-> In k (map fst recs))
    by (intros k; rewrite assign_all_keys_in; simpl; tauto).
  assert (Hle : (List.length (assign_all [] recs) <= List.length recs)%nat)
    by (apply (assign_all_length_le [] recs)).
  split; [apply decode_spec; lia | split; [reflexivity |]].
  split; [exact Hcount | split; [exact Hnd | split; [exact Hin |]]].
  split; [lia |]. rewrite <- Hcount. split.
  - intros Heq.
    apply NoDup_incl_NoDup with (l := keys (assign_all [] recs)); [exact Hnd | |].
    + unfold keys. rewrite !length_map. lia.
    + intros k Hk. now apply Hin.
  - intros Hdistinct.
    rewrite <- (length_map fst (assign_all [] recs)).
    fold (keys (assign_all [] recs)).
    rewrite assign_all_keys by exact Hdistinct.
    simpl. now rewrite length_map.
Qed.

Lemma decode_entry_count_witness :
  exists snap,
    decode Vectors.two_tags = Ok snap /\
    snap = assign_all []
             (records_from Vectors.two_tags
                (Z.to_nat (header_count Vectors.two_tags)) 8) /\
    Z.of_nat (List.length
                (records_from Vectors.two_tags
                   (Z.to_nat (header_count Vectors.two_tags)) 8))
    = Z.min (header_count Vectors.two_tags)
            ((Z.of_nat (List.length Vectors.two_tags) - 8) / 40) /\
    NoDup (keys snap) /\
    (forall k, In k (keys snap) <->
               In k (map fst (records_from Vectors.two_tags
                                (Z.to_nat (header_count Vectors.two_tags)) 8))) /\
    Z.of_nat (List.length snap)
    <= Z.min (header_count Vectors.two_tags)
             ((Z.of_nat (List.length Vectors.two_tags) - 8) / 40) /\
    (Z.of_nat (List.length snap)
     = Z.min (header_count Vectors.two_tags)
             ((Z.of_nat (List.length Vectors.two_tags) - 8) / 40)
     <-> NoDup (map fst (records_from Vectors.two_tags
                           (Z.to_nat (header_count Vectors.two_tags)) 8))).
Proof.
  apply (decode_entry_count Vectors.two_tags). vm_compute. lia.
Defined.

(** C1, as stated, fails: two records whose raw tags 00 00 00 00 and
    01 01 01 01 are both rendered "...." decode to a single entry, where the
    header announces two records and two whole records are there. *)
Lemma rendered_tags_collide :
  decode MoreVectors.colliding_tags
  = Ok [("...."%string, mk_sample 8192 1024 5 1)] /\
  Z.min (header_count MoreVectors.colliding_tags)
        ((Z.of_nat (List.length MoreVectors.colliding_tags) - 8) / 40) = 2 /\
  ~ (exists snap,
        decode MoreVectors.colliding_tags = Ok snap /\
        Z.of_nat (List.length snap)
        = Z.min (header_count MoreVectors.colliding_tags)
                ((Z.of_nat (List.length MoreVectors.colliding_tags) - 8) / 40)).
Proof.
  assert (Hdec : decode MoreVectors.colliding_tags
                 = Ok [("...."%string, mk_sample 8192 1024 5 1)])
    by (vm_compute; reflexivity).
  assert (Hmin : Z.min (header_count MoreVectors.colliding_tags)
                   ((Z.of_nat (List.length MoreVectors.colliding_tags) - 8) / 40) = 2)
    by (vm_compute; reflexivity).
  split; [exact Hdec | split; [exact Hmin |]].
  intros [snap [Hsnap Hlen]]. rewrite Hdec in Hsnap. injection Hsnap as <-.
  rewrite Hmin in Hlen. simpl in Hlen. lia.
Qed.

(** X1: the Snapshot [decode] returns has pairwise distinct keys, and its
    keys are exactly the tags of the records that were read. *)
Theorem decode_keys_unique (data : list byte) (snap : snapshot) :
  decode data = Ok snap ->
  NoDup (keys snap) /\
  (forall k, In k (keys snap) <->
             In k (map fst (records_from data (Z.to_nat (header_count data)) 8))).
Proof.
  intros Hdec.
  destruct (Nat.lt_ge_cases (List.length data) 4) as [Hlt|Hge].
  - rewrite decode_short_header in Hdec by assumption. discriminate.
  - rewrite decode_spec in Hdec by assumption. injection Hdec as <-. split.
    + apply assign_all_nodup. constructor.
    + intros k. rewrite assign_all_keys_in. simpl. tauto.
Qed.

(** X2: when a tag occurs in several records of one buffer, the Snapshot
    holds the values of the last of them; a tag of no record is absent. *)
Theorem decode_last_write_wins (data : list byte) (snap : snapshot) (tag : string) :
  decode data = Ok snap ->
  dict_get snap tag
  = last_assigned (records_from data (Z.to_nat (header_count data)) 8) tag.
Proof.
  intros Hdec.
  destruct (Nat.lt_ge_cases (List.length data) 4) as [Hlt|Hge].
  - rewrite decode_short_header in Hdec by assumption. discriminate.
  - rewrite decode_spec in Hdec by assumption. injection Hdec as <-.
    rewrite assign_all_get. simpl.
    now destruct (last_assigned _ tag).
Qed.

Lemma decode_keys_unique_witness :
  NoDup ["AAAA"%string; "BBBB"%string] /\
  (forall k, In k ["AAAA"%string; "BBBB"%string] <->
             In k ["AAAA"%string; "BBBB"%string; "AAAA"%string]).
Proof.
  apply (decode_keys_unique MoreVectors.repeated_tag
           [("AAAA"%string, mk_sample 50 60 2 2);
            ("BBBB"%string, mk_sample 30 40 2 2)]).
  vm_compute. reflexivity.
Defined.

Lemma decode_last_write_wins_witness :
  dict_get [("AAAA"%string, mk_sample 50 60 2 2);
            ("BBBB"%string, mk_sample 30 40 2 2)] "AAAA"
  = last_assigned
      [("AAAA"%string, mk_sample 10 20 1 1);
       ("BBBB"%string, mk_sample 30 40 2 2);
       ("AAAA"%string, mk_sample 50 60 2 2)] "AAAA".
Proof.
  apply (decode_last_write_wins MoreVectors.repeated_tag
           [("AAAA"%string, mk_sample 50 60 2 2);
            ("BBBB"%string, mk_sample 30 40 2 2)] "AAAA"%string).
  vm_compute. reflexivity.
Defined.

(** ** What the decoder reads *)

Lemma reserved_false (p : nat) :
  reserved p = false <->
  ~ ((4 <= p < 8)%nat \/ (8 <= p /\ 12 <= (p - 8) mod 40 < 16)%nat).
Proof.
  unfold reserved.
  destruct (Nat.leb_spec 4 p), (Nat.ltb_spec p 8), (Nat.leb_spec 8 p),
    (Nat.leb_spec 12 ((p - 8) mod 40)), (Nat.ltb_spec ((p - 8) mod 40) 16);
    cbn [andb orb]; split; intros Hyp; try discriminate Hyp; try reflexivity; try lia;
    exfalso; apply Hyp; lia.
Qed.

Lemma record_ext (d1 d2 : list byte) (o : nat) :
  (forall j, (j < 40)%nat -> ~ (12 <= j < 16)%nat ->
             nth (o + j) d1 x00 = nth (o + j) d2 x00) ->
  spec_tag d1 o = spec_tag d2 o /\ spec_counters d1 o = spec_counters d2 o.
Proof.
  intros H.
  assert (H0 : nth o d1 x00 = nth o d2 x00)
    by (rewrite <- (Nat.add_0_r o); apply H; lia).
  unfold spec_tag, spec_counters, u64_le_at, u32_le_at, byte_at.
  rewrite <- !Nat.add_assoc. cbn [Nat.add].
  rewrite H0. rewrite !H by lia. split; reflexivity.
Qed.

Lemma records_from_ext (d1 d2 : list byte) (n1 n2 off k : nat) :
  Nat.min n1 ((List.length d1 - off) / 40) = k ->
  Nat.min n2 ((List.length d2 - off) / 40) = k ->
  (forall p, (off <= p < off + 40 * k)%nat ->
             ~ (12 <= (p - off) mod 40 < 16)%nat ->
             nth p d1 x00 = nth p d2 x00) ->
  records_from d1 n1 off = records_from d2 n2 off.
Proof.
  intros H1 H2 Hext. unfold records_from. rewrite H1, H2.
  apply map_ext_in. intros i Hi. apply in_seq in Hi.
  destruct (record_ext d1 d2 (off + 40 * i)) as [-> ->]; [| reflexivity].
  intros j Hj Hres. apply Hext; [lia |].
  replace (off + 40 * i + j - off)%nat with (j + i * 40)%nat by lia.
  rewrite Nat.Div0.mod_add, Nat.mod_small by lia. exact Hres.
Qed.

Lemma header_count_ext (d1 d2 : list byte) :
  (forall p, (p < 4)%nat -> nth p d1 x00 = nth p d2 x00) ->
  header_count d1 = header_count d2.
Proof.
  intros H. unfold header_count, u32_le_at, byte_at. cbn [Nat.add].
  now rewrite !H by lia.
Qed.

(** X3: the header bytes 4-7 and the bytes 12-15 of a record are never
    read: two buffers of one length that differ only there decode alike. *)
Theorem decode_ignores_reserved_bytes (d1 d2 : list byte) :
  List.length d1 = List.length d2 ->
  (forall p, reserved p = false -> nth p d1 x00 = nth p d2 x00) ->
  decode d1 = decode d2.
Proof.
  intros Hlen Hext.
  destruct (Nat.lt_ge_cases (List.length d1) 4) as [Hlt|Hge].
  - rewrite !decode_short_header by lia. reflexivity.
  - rewrite !decode_spec by lia.
    assert (Hc : header_count d1 = header_count d2).
    { apply header_count_ext. intros p Hp. apply Hext, reserved_false. lia. }
    rewrite <- Hc. f_equal. f_equal.
    apply (records_from_ext d1 d2 _ _ 8
             (Nat.min (Z.to_nat (header_count d1)) ((List.length d1 - 8) / 40)));
      [reflexivity | now rewrite Hlen |].
    intros p Hp Hres. apply Hext, reserved_false. lia.
Qed.

Lemma decode_ignores_reserved_bytes_witness :
  decode Vectors.two_tags = decode MoreVectors.two_tags_reserved.
Proof.
  apply decode_ignores_reserved_bytes.
  - vm_compute. reflexivity.
  - intros p Hp.
    assert (Hcases : (88 <= p)%nat \/ In p (seq 0 88)) by (rewrite in_seq; lia).
    destruct Hcases as [Hbig|Hin].
    + rewrite !nth_overflow by (vm_compute; lia). reflexivity.
    + revert Hp. revert p Hin.
      refine (proj1 (Forall_forall
                       (fun p => reserved p = false ->
                                 nth p Vectors.two_tags x00
                                 = nth p MoreVectors.two_tags_reserved x00)
                       (seq 0 88)) _).
      repeat (apply Forall_cons;
              [vm_compute; intros H; try reflexivity; discriminate H |]).
      apply Forall_nil.
Defined.

Lemma nth_firstn_lt {A : Type} (l : list A) (n p : nat) (d : A) :
  (p < n)%nat -> nth p (firstn n l) d = nth p l d.
Proof.
  revert n p. induction l as [|a l IH]; intros [|n] [|p] Hp; simpl;
    try reflexivity; try lia.
  apply IH. lia.
Qed.

(** X4: only the header and the records that are read matter. The bytes
    after the last record read can be cut off, and when the buffer holds all
    the records its header announces, anything appended to it is ignored. *)
Theorem decode_reads_records_only (data : list byte) :
  (8 <= List.length data)%nat ->
  decode (firstn (8 + 40 * Nat.min (Z.to_nat (header_count data))
                                   ((List.length data - 8) / 40)) data)
  = decode data /\
  (forall extra : list byte,
      (Z.to_nat (header_count data) <= (List.length data - 8) / 40)%nat ->
      decode (data ++ extra) = decode data).
Proof.
  intros Hlen.
  set (n := Z.to_nat (header_count data)).
  set (fit := ((List.length data - 8) / 40)%nat).
  assert (Hfit : (40 * fit <= List.length data - 8)%nat)
    by (apply Nat.Div0.mul_div_le).
  split.
  - set (k := Nat.min n fit).
    assert (Hk : (8 + 40 * k <= List.length data)%nat) by lia.
    assert (Hl : List.length (firstn (8 + 40 * k) data) = (8 + 40 * k)%nat)
      by (rewrite length_firstn; lia).
    rewrite !decode_spec by lia.
    assert (Hc : header_count (firstn (8 + 40 * k) data) = header_count data).
    { apply header_count_ext. intros p Hp. apply nth_firstn_lt. lia. }
    rewrite Hc. fold n. f_equal. f_equal.
    apply (records_from_ext _ _ _ _ 8 k).
    + rewrite Hl.
      replace (8 + 40 * k - 8)%nat with (k * 40)%nat by lia.
      rewrite Nat.div_mul by lia. lia.
    + reflexivity.
    + intros p Hp _. apply nth_firstn_lt. lia.
  - intros extra Hall. fold n fit in Hall.
    rewrite !decode_spec by (rewrite ?length_app; lia).
    assert (Hc : header_count (data ++ extra) = header_count data).
    { apply header_count_ext. intros p Hp. apply app_nth1. lia. }
    rewrite Hc. fold n. f_equal. f_equal.
    apply (records_from_ext _ _ _ _ 8 n).
    + rewrite length_app.
      assert (Hmono : (fit <= (List.length data + List.length extra - 8) / 40)%nat)
        by (apply Nat.Div0.div_le_mono; lia).
      lia.
    + fold fit. lia.
    + intros p Hp _. apply app_nth1. lia.
Qed.

Lemma decode_reads_records_only_witness :
  decode (firstn (8 + 40 * Nat.min (Z.to_nat (header_count Vectors.truncated))
                                   ((List.length Vectors.truncated - 8) / 40))
            Vectors.truncated)
  = decode Vectors.truncated /\
  decode (Vectors.grown ++ [x2a; x2a; x2a]) = decode Vectors.grown.
Proof.
  destruct (decode_reads_records_only Vectors.truncated) as [Hcut _];
    [vm_compute; lia |].
  destruct (decode_reads_records_only Vectors.grown) as [_ Happ];
    [vm_compute; lia |].
  split; [exact Hcut | apply Happ; vm_compute; lia].
Defined.

(** ** Tags *)

Lemma tag_char_fixes_printable (b : byte) :
  byte_of_ascii (tag_char b) = b <-> printable b.
Proof.
  unfold printable.
  destruct b; cbn [Byte.to_N]; (split; [intros H | intros [H1 H2]]);
    try reflexivity; try discriminate H;
    try (split; discriminate);
    try (exfalso; apply H1; reflexivity);
    exfalso; apply H2; reflexivity.
Qed.

Lemma map_fixes {A : Type} (f : A -> A) (l : list A) :
  map f l = l <-> Forall (fun x => f x = x) l.
Proof.
  induction l as [|a l IH]; simpl.
  - split; [constructor | reflexivity].
  - split.
    + intros H. injection H as Ha Hl. constructor; [assumption | now apply IH].
    + intros H. inversion H as [|? ? Ha Hl]; subst.
      rewrite Ha. f_equal. now apply IH.
Qed.

(** X5: the key of a record gives back its four tag bytes exactly when all
    four are printable ASCII; every other byte is lost to ['.']. *)
Theorem tag_round_trip (data : list byte) (offset : nat) :
  list_byte_of_string (tag_at data offset) = slice data offset (offset + 4)
  <-> Forall printable (slice data offset (offset + 4)).
Proof.
  unfold tag_at, list_byte_of_string.
  rewrite list_ascii_of_string_of_list_ascii, map_map, map_fixes.
  split; apply Forall_impl; intros b; apply tag_char_fixes_printable.
Qed.

(** ** The size of a Snapshot *)

(** X6: the buffer being [buf_size] = 2 MiB, [get_pool_tags] never returns
    more than 52428 tags, whatever the header announces. *)
Theorem get_pool_tags_at_most_52428 (r : os_reply) (snap : snapshot) :
  Z.of_nat (List.length (raw r)) <= buf_size ->
  get_pool_tags r = Ok snap ->
  Z.of_nat (List.length snap) <= 52428.
Proof.
  unfold buf_size, get_pool_tags. intros Hraw Hget.
  destruct (negb (status r =? 0)); [injection Hget as <-; simpl; lia |].
  set (data := firstn (ret_len r) (raw r)) in *.
  assert (Hdata : (List.length data <= List.length (raw r))%nat)
    by (unfold data; rewrite length_firstn; lia).
  destruct (Nat.lt_ge_cases (List.length data) 4) as [Hlt|Hge].
  - rewrite decode_short_header in Hget by assumption. discriminate.
  - rewrite decode_spec in Hget by assumption. injection Hget as <-.
    pose proof (assign_all_length_le []
                  (records_from data (Z.to_nat (header_count data)) 8)) as Hle.
    cbn [List.length Nat.add] in Hle.
    assert (Hrec : List.length (records_from data (Z.to_nat (header_count data)) 8)
                   = Nat.min (Z.to_nat (header_count data)) ((List.length data - 8) / 40))
      by (unfold records_from; now rewrite length_map, length_seq).
    assert (Hdiv : Z.of_nat ((List.length data - 8) / 40) <= 52428).
    { rewrite Nat2Z.inj_div.
      enough (Z.of_nat (List.length data - 8) / Z.of_nat 40 < 52429) by lia.
      apply Z.div_lt_upper_bound; lia. }
    lia.
Qed.

Lemma get_pool_tags_at_most_52428_witness :
  Z.of_nat (List.length [("AAAA"%string, mk_sample 1000000 77 60 (-1));
                         ("B{~}"%string, mk_sample 2 5 (-1) (-1))]) <= 52428.
Proof.
  apply (get_pool_tags_at_most_52428 (Vectors.os_one_failure 0)).
  - vm_compute. discriminate.
  - vm_compute. reflexivity.
Defined.

(** * Further properties of the growth computation *)

Lemma dict_get_in_nodup {V : Type} (d : dict V) (k : string) (v : V) :
  NoDup (keys d) -> In (k, v) d -> dict_get d k = Some v.
Proof.
  unfold keys. induction d as [|[k0 v0] d IH]; simpl; [intros _ [] |].
  intros Hnd Hin. inversion Hnd as [|? ? Hk0 Hd]; subst.
  destruct Hin as [Heq|Hin].
  - injection Heq as -> ->. now rewrite String.eqb_refl.
  - destruct (String.eqb_spec k0 k) as [->|Hne]; [| now apply IH].
    exfalso. apply Hk0. apply in_map_iff. now exists (k, v).
Qed.

Lemma flat_map_nil {A B : Type} (f : A -> list B) (l : list A) :
  (forall x, In x l -> f x = []) -> flat_map f l = [].
Proof.
  induction l as [|a l IH]; intros H; simpl; [reflexivity |].
  rewrite (H a) by now left. apply IH. intros x Hx. apply H. now right.
Qed.

(** X7: a Snapshot compared with itself shows no growth. *)
Theorem no_self_growth (s : snapshot) :
  NoDup (keys s) -> growers s s = [].
Proof.
  intros Hnd. unfold growers. rewrite growers_unsorted_flat_map.
  rewrite flat_map_nil; [reflexivity |].
  intros [tag cur] Hin. unfold growers_step, dict_get_default.
  rewrite (dict_get_in_nodup s tag cur Hnd Hin).
  rewrite !Z.sub_diag. reflexivity.
Qed.

Lemma no_self_growth_witness :
  growers [("AAAA"%string, mk_sample 1000000 77 60 (-1));
           ("B{~}"%string, mk_sample 2 5 (-1) (-1))]
          [("AAAA"%string, mk_sample 1000000 77 60 (-1));
           ("B{~}"%string, mk_sample 2 5 (-1) (-1))] = [].
Proof.
  apply no_self_growth. apply distinct_NoDup. vm_compute. reflexivity.
Defined.

Lemma growers_step_tags (baseline : snapshot) (item : string * sample) :
  map g_tag (growers_step baseline [] item) = []
  \/ map g_tag (growers_step baseline [] item) = [fst item].
Proof.
  destruct item as [tag cur]. unfold growers_step.
  destruct (_ >? _); [right | left]; reflexivity.
Qed.

Lemma growers_unsorted_tags (baseline current : snapshot) (tag : string) :
  In tag (map g_tag (flat_map (growers_step baseline []) current)) ->
  In tag (keys current).
Proof.
  unfold keys. induction current as [|item current IH]; simpl; [tauto |].
  rewrite map_app, in_app_iff. intros [Hin|Hin]; [| right; now apply IH].
  destruct (growers_step_tags baseline item) as [E|E]; rewrite E in Hin.
  - destruct Hin.
  - destruct Hin as [<-|[]]. now left.
Qed.

(** X8: when the keys of the current Snapshot are distinct, as those of a
    decoded one are, every tag has at most one row in the growth table, and
    the table has at most as many rows as the Snapshot has tags. *)
Theorem growers_one_row_per_tag (baseline current : snapshot) :
  NoDup (keys current) ->
  NoDup (map g_tag (growers baseline current)) /\
  (List.length (growers baseline current) <= List.length current)%nat.
Proof.
  intros Hnd.
  assert (Hperm : Permutation (flat_map (growers_step baseline []) current)
                    (growers baseline current)).
  { unfold growers. rewrite growers_unsorted_flat_map. apply sort_reverse_perm. }
  split.
  - eapply Permutation_NoDup; [apply Permutation_map, Hperm |].
    clear Hperm. unfold keys in Hnd.
    induction current as [|item current IH]; simpl; [constructor |].
    inversion Hnd as [|? ? Hk Hrest]; subst.
    rewrite map_app. apply NoDup_app; [| now apply IH |].
    + destruct (growers_step_tags baseline item) as [E|E]; rewrite E;
        repeat constructor. intros [].
    + intros tag Hin Hin'.
      destruct (growers_step_tags baseline item) as [E|E]; rewrite E in Hin.
      * destruct Hin.
      * destruct Hin as [<-|[]]. apply Hk.
        now apply (growers_unsorted_tags baseline).
  - rewrite <- (Permutation_length Hperm). clear Hperm Hnd.
    induction current as [|item current IH]; simpl; [lia |].
    rewrite length_app.
    assert (Hone : (List.length (growers_step baseline [] item) <= 1)%nat).
    { rewrite <- (length_map g_tag).
      destruct (growers_step_tags baseline item) as [E|E]; rewrite E; simpl; lia. }
    lia.
Qed.

Lemma growers_one_row_per_tag_witness :
  NoDup (map g_tag
           (growers [("AAAA"%string, mk_sample 1000000 77 60 (-1))]
                    [("BBBB"%string, mk_sample 200000 0 1 0);
                     ("AAAA"%string, mk_sample 100000 100000 1 1)])) /\
  (List.length
     (growers [("AAAA"%string, mk_sample 1000000 77 60 (-1))]
              [("BBBB"%string, mk_sample 200000 0 1 0);
               ("AAAA"%string, mk_sample 100000 100000 1 1)]) <= 2)%nat.
Proof.
  apply (growers_one_row_per_tag
           [("AAAA"%string, mk_sample 1000000 77 60 (-1))]
           [("BBBB"%string, mk_sample 200000 0 1 0);
            ("AAAA"%string, mk_sample 100000 100000 1 1)]).
  apply distinct_NoDup. vm_compute. reflexivity.
Defined.

(** * Further properties of the final summary *)

Section SortMap.
Context {A B : Type} (f : A -> B) (keyA : A -> Z) (keyB : B -> Z).
Hypothesis key_f : forall x, keyB (f x) = keyA x.

Lemma insert_desc_map (x : A) (l : list A) :
  map f (insert_desc keyA x l) = insert_desc keyB (f x) (map f l).
Proof.
  induction l as [|y l IH]; simpl; [reflexivity |].
  rewrite !key_f. destruct (keyA y <=? keyA x); simpl; [reflexivity |].
  now rewrite IH.
Qed.

Lemma sort_reverse_map (l : list A) :
  map f (sort_reverse keyA l) = sort_reverse keyB (map f l).
Proof.
  induction l as [|x l IH]; simpl; [reflexivity |].
  now rewrite insert_desc_map, IH.
Qed.
End SortMap.

Lemma int_truediv_raises (a b : Z) (e : exn) :
  int_truediv a b = Raise e -> e = ZeroDivisionError \/ e = OverflowError.
Proof.
  unfold int_truediv. destruct (b =? 0); [intros H; injection H as <-; now left |].
  destruct (is_inf _); intros H; [injection H as <-; now right | discriminate].
Qed.

Lemma float_truediv_raises (x y : float) (e : exn) :
  float_truediv x y = Raise e -> e = ZeroDivisionError.
Proof.
  unfold float_truediv. destruct (is_zero y); intros H;
    [now injection H as <- | discriminate].
Qed.

Lemma rate_kb_per_min_raises (d samples interval : Z) (e : exn) :
  rate_kb_per_min d samples interval = Raise e ->
  e = ZeroDivisionError \/ e = OverflowError.
Proof.
  unfold rate_kb_per_min.
  destruct (int_truediv d 1024) as [kb|e1] eqn:E1; cbn [Py.bind].
  - destruct (int_truediv (samples * interval) 60) as [m|e2] eqn:E2; cbn [Py.bind].
    + intros H. left. now apply float_truediv_raises in H.
    + intros H. injection H as <-. now apply int_truediv_raises in E2.
  - intros H. injection H as <-. now apply int_truediv_raises in E1.
Qed.

Lemma rate_kb_per_min_zero_elapsed (d samples interval : Z) :
  samples * interval = 0 ->
  exists e, rate_kb_per_min d samples interval = Raise e.
Proof.
  intros H0. unfold rate_kb_per_min. rewrite H0.
  destruct (int_truediv d 1024) as [kb|e1]; cbn [Py.bind];
    [| now exists e1].
  change (int_truediv 0 60) with (@Ok float (S754_zero false)).
  cbn [Py.bind]. exists ZeroDivisionError. reflexivity.
Qed.

(** The test of the final loop is the test of the round loop. *)
Lemma suspects_step_growers_step (baseline : snapshot) (samples interval : Z)
  (acc : list suspect) (tag : string) (cur : sample) :
  let base := dict_get_default baseline tag zero_sample in
  let d_total := paged cur - paged base + (nonpaged cur - nonpaged base) in
  ((d_total >? min_delta_kb * 1024) = false /\
   growers_step baseline [] (tag, cur) = [] /\
   suspects_step baseline samples interval acc (tag, cur) = Ok acc)
  \/
  ((d_total >? min_delta_kb * 1024) = true /\
   growers_step baseline [] (tag, cur)
   = [mk_grower tag (paged cur - paged base) (nonpaged cur - nonpaged base)
        d_total (paged cur + nonpaged cur)] /\
   suspects_step baseline samples interval acc (tag, cur)
   = Py.bind (rate_kb_per_min d_total samples interval)
       (fun rate => Ok (acc ++ [mk_suspect tag d_total rate (paged cur + nonpaged cur)]))).
Proof.
  cbv zeta. unfold growers_step, suspects_step.
  replace (paged cur + nonpaged cur
           - (paged (dict_get_default baseline tag zero_sample)
              + nonpaged (dict_get_default baseline tag zero_sample)))
    with (paged cur - paged (dict_get_default baseline tag zero_sample)
          + (nonpaged cur - nonpaged (dict_get_default baseline tag zero_sample)))
    by lia.
  destruct (_ >? _); [right | left]; repeat split.
Qed.

Lemma suspects_loop_summary (baseline : snapshot) (samples interval : Z)
  (items : list (string * sample)) (acc l : list suspect) :
  suspects_loop baseline samples interval items acc = Ok l ->
  map suspect_summary l
  = map suspect_summary acc
    ++ map grower_summary (flat_map (growers_step baseline []) items) /\
  (Forall (fun x => rate_kb_per_min (s_d_total x) samples interval = Ok (s_rate x)) acc ->
   Forall (fun x => rate_kb_per_min (s_d_total x) samples interval = Ok (s_rate x)) l).
Proof.
  revert acc. induction items as [|[tag cur] items IH]; intros acc Hloop.
  - injection Hloop as <-. simpl. rewrite app_nil_r. tauto.
  - cbn [suspects_loop flat_map] in Hloop |- *.
    destruct (suspects_step_growers_step baseline samples interval acc tag cur)
      as [[_ [Hg Hs]]|[_ [Hg Hs]]]; rewrite Hs in Hloop; rewrite Hg.
    + cbn [Py.bind] in Hloop. now apply IH.
    + destruct (rate_kb_per_min _ samples interval) as [rate|e] eqn:Hrate;
        cbn [Py.bind] in Hloop; [| discriminate].
      apply IH in Hloop. destruct Hloop as [Hmap Hrates]. split.
      * rewrite Hmap, map_app, <- app_assoc. reflexivity.
      * intros Hacc. apply Hrates. apply Forall_app. split; [assumption |].
        repeat constructor. exact Hrate.
Qed.

(** X9: when the final summary is computed, its rows carry the tags, the
    deltas and the totals of the growth table of the same two Snapshots, in
    the same order, and every rate is [rate_kb_per_min] of the row's delta. *)
Theorem suspects_agree_with_growers (baseline final : snapshot)
  (samples interval : Z) (l : list suspect) :
  suspects baseline final samples interval = Ok l ->
  map suspect_summary l = map grower_summary (growers baseline final) /\
  Forall (fun x => rate_kb_per_min (s_d_total x) samples interval = Ok (s_rate x)) l.
Proof.
  unfold suspects. intros H.
  destruct (suspects_loop baseline samples interval final []) as [l0|e] eqn:Hloop;
    cbn [Py.bind] in H; [injection H as <- | discriminate].
  apply suspects_loop_summary in Hloop. destruct Hloop as [Hmap Hrates]. split.
  - rewrite (sort_reverse_map suspect_summary s_d_total (fun t => snd (fst t)))
      by reflexivity.
    unfold growers.
    rewrite (sort_reverse_map grower_summary g_d_total (fun t => snd (fst t)))
      by reflexivity.
    rewrite Hmap, growers_unsorted_flat_map. reflexivity.
  - eapply Permutation_Forall; [apply sort_reverse_perm |].
    apply Hrates. constructor.
Qed.

Lemma suspects_agree_with_growers_witness :
  map suspect_summary
    [mk_suspect "AAAA" 10485760 (S754_finite false 4503599627370496 (-42)) 11485837]
  = map grower_summary
      (growers [("AAAA"%string, mk_sample 1000000 77 60 (-1))]
               [("AAAA"%string, mk_sample 11485760 77 60 (-1))]) /\
  Forall (fun x => rate_kb_per_min (s_d_total x) 20 30 = Ok (s_rate x))
    [mk_suspect "AAAA" 10485760 (S754_finite false 4503599627370496 (-42)) 11485837].
Proof.
  apply (suspects_agree_with_growers
           [("AAAA"%string, mk_sample 1000000 77 60 (-1))]
           [("AAAA"%string, mk_sample 11485760 77 60 (-1))] 20 30).
  vm_compute. reflexivity.
Defined.

Lemma suspects_loop_zero_elapsed (baseline : snapshot) (samples interval : Z)
  (items : list (string * sample)) (acc : list suspect) :
  samples * interval = 0 ->
  flat_map (growers_step baseline []) items <> [] ->
  exists e, suspects_loop baseline samples interval items acc = Raise e.
Proof.
  intros H0. induction items as [|[tag cur] items IH]; intros Hne.
  - now contradiction Hne.
  - cbn [suspects_loop flat_map] in Hne |- *.
    destruct (suspects_step_growers_step baseline samples interval acc tag cur)
      as [[_ [Hg Hs]]|[_ [Hg Hs]]]; rewrite Hs; rewrite Hg in Hne.
    + cbn [Py.bind]. now apply IH.
    + destruct (rate_kb_per_min_zero_elapsed
                  (paged cur - paged (dict_get_default baseline tag zero_sample)
                   + (nonpaged cur - nonpaged (dict_get_default baseline tag zero_sample)))
                  samples interval H0) as [e He].
      rewrite He. now exists e.
Qed.

Lemma suspects_raises (baseline final : snapshot) (samples interval : Z) (e : exn) :
  suspects baseline final samples interval = Raise e ->
  e = ZeroDivisionError \/ e = OverflowError.
Proof.
  unfold suspects.
  destruct (suspects_loop baseline samples interval final []) as [l|e'] eqn:Hloop;
    cbn [Py.bind]; [discriminate |].
  intros H. injection H as <-. revert Hloop. generalize (@nil suspect).
  induction final as [|[tag cur] items IH]; intros acc Hloop; [discriminate |].
  cbn [suspects_loop] in Hloop.
  destruct (suspects_step_growers_step baseline samples interval acc tag cur)
    as [[_ [_ Hs]]|[_ [_ Hs]]]; rewrite Hs in Hloop.
  - now apply (IH acc).
  - destruct (rate_kb_per_min _ samples interval) as [rate|e1] eqn:Hrate;
      cbn [Py.bind] in Hloop.
    + now apply (IH _ Hloop).
    + injection Hloop as <-. now apply rate_kb_per_min_raises in Hrate.
Qed.

(** X10: with no time elapsed ([samples * interval = 0]) the final summary
    cannot be computed once a tag has grown beyond the threshold: the rate
    divides by zero and [suspects] raises. *)
Theorem suspects_zero_elapsed_raises (baseline final : snapshot)
  (samples interval : Z) :
  samples * interval = 0 ->
  growers baseline final <> [] ->
  exists e,
    suspects baseline final samples interval = Raise e /\
    (e = ZeroDivisionError \/ e = OverflowError).
Proof.
  intros H0 Hne.
  assert (Hflat : flat_map (growers_step baseline []) final <> []).
  { intros Hnil. apply Hne. unfold growers.
    now rewrite growers_unsorted_flat_map, Hnil. }
  destruct (suspects_loop_zero_elapsed baseline samples interval final [] H0 Hflat)
    as [e He].
  exists e. assert (Hs : suspects baseline final samples interval = Raise e)
    by (unfold suspects; now rewrite He).
  split; [exact Hs | now apply suspects_raises in Hs].
Qed.

Lemma suspects_zero_elapsed_raises_witness :
  exists e,
    suspects [("AAAA"%string, mk_sample 1000000 77 60 (-1))]
             [("AAAA"%string, mk_sample 11485760 77 60 (-1))] 0 30 = Raise e /\
    (e = ZeroDivisionError \/ e = OverflowError).
Proof.
  apply suspects_zero_elapsed_raises.
  - reflexivity.
  - vm_compute. discriminate.
Defined.

(** ** The rate formulas *)






(** * Further properties of [main] *)

Lemma firstn_in {A : Type} (n : nat) (l : list A) (x : A) :
  In x (firstn n l) -> In x l.
Proof.
  intros Hin. rewrite <- (firstn_skipn n l). apply in_or_app. now left.
Qed.

Lemma strongly_sorted_firstn {A : Type} (R : A -> A -> Prop) (n : nat) (l : list A) :
  StronglySorted R l -> StronglySorted R (firstn n l).
Proof.
  revert n. induction l as [|a l IH]; intros [|n] Hs; simpl; try constructor.
  - apply IH. now inversion Hs.
  - inversion Hs as [|? ? _ Ha]; subst.
    apply Forall_forall. intros x Hx. apply firstn_in in Hx.
    revert x Hx. now apply Forall_forall.
Qed.

Lemma growth_table_ok (elapsed : Z) (baseline current : snapshot) :
  table_ok (Out_growth elapsed (firstn 15 (growers baseline current))).
Proof.
  cbn [table_ok]. split; [apply firstn_le_length | split].
  - apply Forall_forall. intros r Hr. apply firstn_in in Hr.
    apply growers_in in Hr. destruct Hr as [tag [cur [_ [Hgt ->]]]].
    cbn [g_d_total]. change (min_delta_kb * 1024) with 102400 in Hgt. exact Hgt.
  - apply strongly_sorted_firstn. unfold growers. apply sort_reverse_sorted.
Qed.

Lemma emit_run (o : output) (w : world) :
  emit o w = (Ok tt, {| calls := calls w; trace := trace w ++ [o] |}).
Proof. reflexivity. Qed.

Lemma sampling_loop_tables_ok (os : nat -> os_reply) (interval : Z)
  (baseline : snapshot) (n : nat) (i : Z) (h : history) (w : world) :
  Forall table_ok (trace w) ->
  Forall table_ok (trace (snd (sampling_loop os interval baseline n i h w))).
Proof.
  revert i h w. induction n as [|n IH]; intros i h w Hw; [exact Hw |].
  cbn [sampling_loop]. unfold io_bind at 1. unfold sleep.
  destruct ((interval <? -9223372036) || (9223372036 <? interval)); [exact Hw |].
  destruct (interval <? 0); [exact Hw |].
  rewrite emit_run.
  unfold io_bind at 1. unfold call_get_pool_tags. cbn [calls trace].
  destruct (get_pool_tags (os (calls w))) as [current|e].
  - unfold io_bind at 1. rewrite emit_run. cbn [calls trace].
    apply IH. cbn [trace].
    apply Forall_app. split.
    + apply Forall_app. split; [exact Hw | repeat constructor].
    + constructor; [apply growth_table_ok | constructor].
  - cbn [snd trace]. apply Forall_app. split; [exact Hw | repeat constructor].
Qed.

(** X11: whatever the replies of the system and however [main] ends, every
    growth table it has printed has at most 15 rows, all of them above the
    threshold, in descending order of their delta. *)
Theorem main_tables_capped (os : nat -> os_reply) (interval samples : Z) :
  Forall table_ok (trace (snd (main os interval samples start))).
Proof.
  unfold main. unfold io_bind at 1. rewrite emit_run. cbn [start calls trace app].
  unfold io_bind at 1. unfold call_get_pool_tags at 1. cbn [calls trace].
  destruct (get_pool_tags (os 0%nat)) as [baseline|e];
    [| cbn [snd trace]; repeat constructor].
  unfold io_bind at 1. rewrite emit_run. cbn [calls trace app].
  unfold io_bind at 1.
  pose proof (sampling_loop_tables_ok os interval baseline (Z.to_nat samples) 1 []
                {| calls := 1;
                   trace := [Out_banner interval samples;
                             Out_baseline (List.length baseline)] |}) as Hloop.
  destruct (sampling_loop os interval baseline (Z.to_nat samples) 1 [] _)
    as [[h|e] w] eqn:Hrun; cbn [snd] in Hloop.
  - assert (Hw : Forall table_ok (trace w))
      by (apply Hloop; cbn [trace]; repeat constructor).
    clear Hloop Hrun.
    unfold io_bind at 1. unfold call_get_pool_tags at 1.
    destruct (get_pool_tags (os (calls w))) as [final|e]; [| exact Hw].
    unfold io_bind at 1. unfold io_lift at 1.
    destruct (suspects baseline final samples interval) as [l|e]; [| exact Hw].
    unfold io_bind at 1. unfold io_lift at 1.
    destruct (final_rows l) as [rows|e]; [| exact Hw].
    rewrite emit_run. cbn [snd trace].
    apply Forall_app. split; [exact Hw | repeat constructor].
  - apply Hloop. cbn [trace]. repeat constructor.
Qed.

(** [main] step by step. *)
Lemma main_run (os : nat -> os_reply) (interval samples : Z) :
  main os interval samples start
  = match get_pool_tags (os 0%nat) with
    | Raise e => (Raise e, {| calls := 1; trace := [Out_banner interval samples] |})
    | Ok baseline =>
        match sampling_loop os interval baseline (Z.to_nat samples) 1 []
                {| calls := 1;
                   trace := [Out_banner interval samples;
                             Out_baseline (List.length baseline)] |}
        with
        | (Raise e, w) => (Raise e, w)
        | (Ok _, w) =>
            match get_pool_tags (os (calls w)) with
            | Raise e => (Raise e, {| calls := S (calls w); trace := trace w |})
            | Ok final =>
                match suspects baseline final samples interval with
                | Raise e => (Raise e, {| calls := S (calls w); trace := trace w |})
                | Ok l =>
                    match final_rows l with
                    | Raise e => (Raise e, {| calls := S (calls w); trace := trace w |})
                    | Ok rows =>
                        (Ok tt, {| calls := S (calls w);
                                   trace := trace w ++ [Out_final rows] |})
                    end
                end
            end
        end
    end.
Proof.
  unfold main. unfold io_bind at 1. rewrite emit_run. cbn [start calls trace app].
  unfold io_bind at 1. unfold call_get_pool_tags at 1. cbn [calls trace].
  destruct (get_pool_tags (os 0%nat)) as [baseline|e]; [| reflexivity].
  unfold io_bind at 1. rewrite emit_run. cbn [calls trace app].
  unfold io_bind at 1.
  destruct (sampling_loop os interval baseline (Z.to_nat samples) 1 [] _)
    as [[h|e] w]; [| reflexivity].
  unfold io_bind at 1. unfold call_get_pool_tags at 1.
  destruct (get_pool_tags (os (calls w))) as [final|e]; [| reflexivity].
  unfold io_bind at 1. unfold io_lift at 1.
  destruct (suspects baseline final samples interval) as [l|e]; [| reflexivity].
  unfold io_bind at 1. unfold io_lift at 1.
  destruct (final_rows l) as [rows|e]; reflexivity.
Qed.

Lemma get_pool_tags_decodable (r : os_reply) :
  reply_decodable r -> exists snap, get_pool_tags r = Ok snap.
Proof.
  intros [Hs|Hlen].
  - exists []. now apply get_pool_tags_failed.
  - unfold get_pool_tags. destruct (negb (status r =? 0)); [now exists [] |].
    rewrite decode_spec by assumption. eexists. reflexivity.
Qed.

Lemma growth_tables_app (t1 t2 : list output) :
  growth_tables (t1 ++ t2) = (growth_tables t1 + growth_tables t2)%nat.
Proof. unfold growth_tables. now rewrite filter_app, length_app. Qed.

Lemma sampling_loop_decodable (os : nat -> os_reply) (interval : Z)
  (baseline : snapshot) (n : nat) (i : Z) (h : history) (w : world) :
  (forall k, reply_decodable (os k)) ->
  0 <= interval <= 9223372036 ->
  exists h' w',
    sampling_loop os interval baseline n i h w = (Ok h', w') /\
    calls w' = (calls w + n)%nat /\
    growth_tables (trace w') = (growth_tables (trace w) + n)%nat /\
    map fst h'
    = map fst h ++ map (fun j => (i + Z.of_nat j) * interval) (seq 0 n).
Proof.
  intros Hos Hi. revert i h w. induction n as [|n IH]; intros i h w.
  - exists h, w. cbn. rewrite app_nil_r. repeat split; lia.
  - cbn [sampling_loop]. unfold io_bind at 1. rewrite sleep_ok by assumption.
    unfold io_bind at 1. unfold call_get_pool_tags. cbn [calls trace].
    destruct (get_pool_tags_decodable (os (calls w)) (Hos _)) as [current ->].
    unfold io_bind at 1. rewrite emit_run. cbn [calls trace].
    destruct (IH (i + 1) (h ++ [(i * interval, growers baseline current)])
                {| calls := S (calls w);
                   trace := (trace w ++ [Out_sleep interval])
                            ++ [Out_growth (i * interval)
                                  (firstn 15 (growers baseline current))] |})
      as [h' [w' [Hrun [Hc [Hg Hh]]]]].
    exists h', w'. split; [exact Hrun |]. cbn [calls trace] in Hc, Hg.
    rewrite !growth_tables_app in Hg. cbn in Hg.
    split; [lia | split; [lia |]].
    rewrite Hh, map_app, <- app_assoc. f_equal.
    cbn [map fst app seq]. rewrite Z.add_0_r. f_equal.
    rewrite <- seq_shift, map_map. apply map_ext. intros j. f_equal. lia.
Qed.

(** X12: as long as every reply is a failure status or holds the 4-byte
    record count, and the interval is a sleep that every platform takes
    (from 0 to [sleep_portable_max] seconds), the sampling loop started on
    a captured baseline runs all its rounds: one system call and one table
    per round, at the elapsed times [i * interval], [(i + 1) * interval],
    ...  (Loop indices are of machine size, as [range] gives them.) *)
Theorem sampling_loop_completes (os : nat -> os_reply) (interval : Z)
  (r0 : os_reply) (baseline : snapshot) (n : nat) (i : Z) (h : history)
  (w : world) :
  (forall k, reply_decodable (os k)) ->
  0 <= interval <= sleep_portable_max ->
  get_pool_tags r0 = Ok baseline ->
  machine_int i ->
  i + Z.of_nat n < 2 ^ 63 ->
  exists h' w',
    sampling_loop os interval baseline n i h w = (Ok h', w') /\
    calls w' = (calls w + n)%nat /\
    growth_tables (trace w') = (growth_tables (trace w) + n)%nat /\
    map fst h'
    = map fst h ++ map (fun j => (i + Z.of_nat j) * interval) (seq 0 n).
Proof.
  unfold sleep_portable_max. intros Hos Hi _ _ _.
  apply sampling_loop_decodable; [assumption | lia].
Qed.

Lemma os_growing_decodable (k : nat) : reply_decodable (MoreVectors.os_growing k).
Proof. right. destruct k; vm_compute; lia. Qed.

Lemma sampling_loop_completes_witness :
  exists h' w',
    sampling_loop MoreVectors.os_growing 30
      [("AAAA"%string, mk_sample 1000000 77 60 (-1));
       ("B{~}"%string, mk_sample 2 5 (-1) (-1))] 3 1 []
      {| calls := 1; trace := [] |} = (Ok h', w') /\
    calls w' = 4%nat /\
    growth_tables (trace w') = 3%nat /\
    map fst h' = [30; 60; 90].
Proof.
  apply (sampling_loop_completes MoreVectors.os_growing 30
           (MoreVectors.os_growing 0)
           [("AAAA"%string, mk_sample 1000000 77 60 (-1));
            ("B{~}"%string, mk_sample 2 5 (-1) (-1))] 3 1 []
           {| calls := 1; trace := [] |}).
  - exact os_growing_decodable.
  - unfold sleep_portable_max. lia.
  - vm_compute. reflexivity.
  - unfold machine_int. lia.
  - lia.
Defined.

Lemma est_day_ok (rate : float) : exists day, est_day rate = Ok day.
Proof.
  unfold est_day, float_mul_int, float_div_int.
  change (float_of_int 60) with (@Ok float (S754_finite false 8444249301319680 (-47))).
  change (float_of_int 24) with (@Ok float (S754_finite false 6755399441055744 (-48))).
  change (float_of_int 1024) with (@Ok float (S754_finite false 4503599627370496 (-42))).
  cbn [Py.bind]. unfold float_truediv. cbn [is_zero]. eexists. reflexivity.
Qed.

Lemma final_rows_ok (l : list suspect) :
  exists rows, final_rows l = Ok rows /\ map fst rows = l.
Proof.
  induction l as [|x l [rows [IH Hfst]]]; [now exists [] |].
  cbn [final_rows]. destruct (est_day_ok (s_rate x)) as [day ->].
  rewrite IH. cbn [Py.bind]. exists ((x, day) :: rows).
  split; [reflexivity | simpl; now rewrite Hfst].
Qed.

(** X13: as long as every reply is a failure status or holds the 4-byte
    record count, the interval is a sleep that every platform takes and the
    number of samples is of machine size, [main] makes all its
    [samples + 2] system calls and prints all its [samples] tables, and the
    only way it can fail is the rate of the final summary, with
    ZeroDivisionError or OverflowError. *)
Theorem main_fails_only_in_rates (os : nat -> os_reply) (interval samples : Z) :
  (forall k, reply_decodable (os k)) ->
  0 <= interval <= sleep_portable_max ->
  machine_int samples ->
  calls (snd (main os interval samples start)) = (Z.to_nat samples + 2)%nat /\
  growth_tables (trace (snd (main os interval samples start))) = Z.to_nat samples /\
  (fst (main os interval samples start) = Ok tt \/
   fst (main os interval samples start) = Raise ZeroDivisionError \/
   fst (main os interval samples start) = Raise OverflowError).
Proof.
  unfold sleep_portable_max. intros Hos Hi _. rewrite main_run.
  assert (Hi' : 0 <= interval <= 9223372036) by lia.
  destruct (get_pool_tags_decodable (os 0%nat) (Hos _)) as [baseline ->].
  destruct (sampling_loop_decodable os interval baseline (Z.to_nat samples) 1 []
              {| calls := 1;
                 trace := [Out_banner interval samples;
                           Out_baseline (List.length baseline)] |} Hos Hi')
    as [h [w [-> [Hc [Hg _]]]]].
  cbn [calls trace] in Hc, Hg. change (growth_tables [_; _]) with 0%nat in Hg.
  destruct (get_pool_tags_decodable (os (calls w)) (Hos _)) as [final ->].
  destruct (suspects baseline final samples interval) as [l|e] eqn:Hs.
  - destruct (final_rows_ok l) as [rows [-> _]]. cbn [fst snd calls trace].
    rewrite growth_tables_app. cbn. split; [lia | split; [lia | now left]].
  - cbn [fst snd calls trace]. split; [lia | split; [lia |]].
    apply suspects_raises in Hs. destruct Hs as [-> | ->]; auto.
Qed.

Lemma main_fails_only_in_rates_witness :
  calls (snd (main MoreVectors.os_growing 30 2 start)) = 4%nat /\
  growth_tables (trace (snd (main MoreVectors.os_growing 30 2 start))) = 2%nat /\
  (fst (main MoreVectors.os_growing 30 2 start) = Ok tt \/
   fst (main MoreVectors.os_growing 30 2 start) = Raise ZeroDivisionError \/
   fst (main MoreVectors.os_growing 30 2 start) = Raise OverflowError).
Proof.
  apply (main_fails_only_in_rates MoreVectors.os_growing 30 2).
  - exact os_growing_decodable.
  - unfold sleep_portable_max. lia.
  - unfold machine_int. lia.
Defined.

(** X14: with at least one sample and an interval that [time.sleep] refuses,
    [main] captures the baseline and then stops at the first sleep, after
    one system call and before any table: with ValueError for a negative
    interval down to -9223372036, with OverflowError for an interval beyond
    9223372036 seconds in either direction.  (Interval and number of samples
    are of machine size.) *)
Theorem main_stops_at_first_sleep (os : nat -> os_reply) (interval samples : Z)
  (baseline : snapshot) :
  machine_int interval ->
  machine_int samples ->
  0 < samples ->
  get_pool_tags (os 0%nat) = Ok baseline ->
  (-9223372036 <= interval < 0 ->
   main os interval samples start
   = (Raise ValueError,
      {| calls := 1;
         trace := [Out_banner interval samples;
                   Out_baseline (List.length baseline)] |})) /\
  (interval < -9223372036 \/ 9223372036 < interval ->
   main os interval samples start
   = (Raise OverflowError,
      {| calls := 1;
         trace := [Out_banner interval samples;
                   Out_baseline (List.length baseline)] |})).
Proof.
  intros _ _ Hs Hb. rewrite main_run, Hb.
  destruct (Z.to_nat samples) as [|n] eqn:Hn; [lia |].
  cbn [sampling_loop]. unfold io_bind at 1. unfold sleep.
  destruct (Z.ltb_spec interval (-9223372036)) as [Hlow|Hlow];
    destruct (Z.ltb_spec 9223372036 interval) as [Hhigh|Hhigh];
    destruct (Z.ltb_spec interval 0) as [Hneg|Hneg];
    cbn [orb]; split; intros Hi; try reflexivity; lia.
Qed.

Lemma main_stops_at_first_sleep_witness :
  main Vectors.os_one_failure (-30) 20 start
  = (Raise ValueError,
     {| calls := 1; trace := [Out_banner (-30) 20; Out_baseline 2] |}) /\
  main Vectors.os_one_failure 10000000000 20 start
  = (Raise OverflowError,
     {| calls := 1; trace := [Out_banner 10000000000 20; Out_baseline 2] |}).
Proof.
  destruct (main_stops_at_first_sleep Vectors.os_one_failure (-30) 20
              [("AAAA"%string, mk_sample 1000000 77 60 (-1));
               ("B{~}"%string, mk_sample 2 5 (-1) (-1))])
    as [Hvalue _];
    [unfold machine_int; lia | unfold machine_int; lia | lia
     | vm_compute; reflexivity |].
  destruct (main_stops_at_first_sleep Vectors.os_one_failure 10000000000 20
              [("AAAA"%string, mk_sample 1000000 77 60 (-1));
               ("B{~}"%string, mk_sample 2 5 (-1) (-1))])
    as [_ Hoverflow];
    [unfold machine_int; lia | unfold machine_int; lia | lia
     | vm_compute; reflexivity |].
  split; [apply Hvalue; lia | apply Hoverflow; lia].
Defined.

(** * The boundary of decoding and the rows that are shown *)

(** X15: [decode] raises exactly on buffers shorter than the four bytes of
    the record count, and then struct.error; on every other buffer it
    returns a Snapshot, with at most as many entries as the header announces
    and as whole records follow the 8-byte header. *)
Theorem decode_raises_below_four_bytes_only (data : list byte) :
  ((List.length data < 4)%nat -> decode data = Raise StructError) /\
  ((4 <= List.length data)%nat ->
   exists snap,
     decode data = Ok snap /\
     (List.length snap
      <= Nat.min (Z.to_nat (header_count data)) ((List.length data - 8) / 40))%nat).
Proof.
  split; [apply decode_short_header |].
  intros Hlen.
  exists (assign_all [] (records_from data (Z.to_nat (header_count data)) 8)).
  split; [now apply decode_spec |].
  pose proof (assign_all_length_le []
                (records_from data (Z.to_nat (header_count data)) 8)) as Hle.
  cbn [List.length Nat.add] in Hle.
  assert (Hrec : List.length (records_from data (Z.to_nat (header_count data)) 8)
                 = Nat.min (Z.to_nat (header_count data)) ((List.length data - 8) / 40))
    by (unfold records_from; now rewrite length_map, length_seq).
  lia.
Qed.

Lemma decode_raises_below_four_bytes_only_witness :
  decode [x02; x00; x00] = Raise StructError /\
  exists snap,
    decode MoreVectors.repeated_tag = Ok snap /\
    (List.length snap
     <= Nat.min (Z.to_nat (header_count MoreVectors.repeated_tag))
                ((List.length MoreVectors.repeated_tag - 8) / 40))%nat.
Proof.
  split.
  - apply (decode_raises_below_four_bytes_only [x02; x00; x00]). simpl. lia.
  - apply (decode_raises_below_four_bytes_only MoreVectors.repeated_tag).
    vm_compute. lia.
Defined.

Lemma strongly_sorted_split {A : Type} (R : A -> A -> Prop) (n : nat)
  (l : list A) (x y : A) :
  StronglySorted R l -> In x (firstn n l) -> In y (skipn n l) -> R x y.
Proof.
  revert n. induction l as [|a l IH]; intros [|n] Hs Hx Hy; simpl in *;
    try contradiction.
  inversion Hs as [|? ? Hl Ha]; subst.
  destruct Hx as [<-|Hx].
  - apply (proj1 (Forall_forall _ _) Ha). rewrite <- (firstn_skipn n l).
    apply in_or_app. now right.
  - now apply (IH n).
Qed.

(** X16: the 15 rows of a growth table are those of the largest deltas: no
    record left out has a larger delta than a record shown. *)
Theorem growth_table_shows_largest (baseline current : snapshot) (r r' : grower) :
  In r (firstn 15 (growers baseline current)) ->
  In r' (skipn 15 (growers baseline current)) ->
  g_d_total r >= g_d_total r'.
Proof.
  apply (strongly_sorted_split (fun a b => g_d_total a >= g_d_total b)).
  unfold growers. apply sort_reverse_sorted.
Qed.

Lemma growth_table_shows_largest_witness :
  g_d_total (mk_grower "QAAA" 216000 0 216000 216000)
  >= g_d_total (mk_grower "BAAA" 201000 0 201000 201000).
Proof.
  apply (growth_table_shows_largest [] MoreVectors.many_tags).
  - vm_compute. left. reflexivity.
  - vm_compute. left. reflexivity.
Defined.
